(** * robot-project: frame transport, handshake and latest-frame cache

    A shallow embedding of the Python sources
    [xeon_handshake.py], [xeon_stream.py], [xeon_stream_depth.py] and
    [server_stream_cal_1.py], followed by the properties established
    about them.

    Conventions.
    - Python [bytes] are [list byte]; Python integers are [Z].
    - A connected TCP socket, seen from the receiving side, is the list of
      segments that are still to be delivered; once the list is exhausted
      the peer has closed the connection and [recv] returns [b''].
    - OpenCV, NumPy and [json] are external libraries: their functions are
      section variables, so every result holds for all their behaviours.
    - Logging calls are recorded as events in a trace; wall-clock
      bookkeeping that only emits a log line (the staleness check) is
      left out of the traces. *)

From Stdlib Require Import ZArith List String Lia Bool QArith.
From Stdlib Require Import Strings.Byte Floats.SpecFloat.
From stdpp Require Import base list gmap.

Set Warnings "-register-all".

Local Open Scope Z_scope.

(** ** Bytes, big-endian integers and the socket model *)

Module Wire.

Definition bytes := list byte.

Definition byte_to_Z (b : byte) : Z := Z.of_N (Byte.to_N b).

Definition byte_of_Z (z : Z) : byte :=
  match Byte.of_N (Z.to_N (z mod 256)) with
  | Some b => b
  | None => Byte.x00
  end.

(** [int.from_bytes(bs, byteorder='big')], for any number of bytes. *)
Definition int_from_bytes (bs : bytes) : Z :=
  fold_left (fun acc b => acc * 256 + byte_to_Z b) bs 0.

(** [n.to_bytes(4, byteorder='big')] for [0 <= n < 2^32]. *)
Definition to_bytes4 (n : Z) : bytes :=
  [ byte_of_Z (n / 16777216); byte_of_Z (n / 65536);
    byte_of_Z (n / 256); byte_of_Z n ].

(** [struct.unpack('!II', header)]: two unsigned 32-bit integers in
    network byte order; [struct.error] (here [None]) unless the buffer
    has exactly eight bytes. *)
Definition struct_unpack_II (header : bytes) : option (Z * Z) :=
  match header with
  | [a0; a1; a2; a3; b0; b1; b2; b3] =>
      Some (int_from_bytes [a0; a1; a2; a3], int_from_bytes [b0; b1; b2; b3])
  | _ => None
  end.

(** Modelled from the spec: the sending side of the frame stream (the
    capture node's streaming script) is not among the sources.  Section
    4.1 gives its contract: [encodeHeader(cameraId, payloadLength)]
    yields 8 bytes, both fields unsigned 32-bit in network byte order. *)
Definition encodeHeader (cameraId payloadLength : Z) : bytes :=
  to_bytes4 cameraId ++ to_bytes4 payloadLength.

(** The decoder of the sources, under the name the spec gives it. *)
Definition decodeHeader (header : bytes) : option (Z * Z) :=
  struct_unpack_II header.

Definition socket := list bytes.

(** [client.recv(n)]: at most [n] bytes of the next segment; the rest of
    a longer segment stays queued.  [b''] when the peer has closed (or
    when [n = 0]). *)
Fixpoint recv (n : Z) (s : socket) : bytes * socket :=
  match s with
  | [] => ([], [])
  | c :: rest =>
      if n <=? 0 then ([], s)
      else match c with
           | [] => recv n rest
           | _ :: _ =>
               if Z.of_nat (length c) <=? n then (c, rest)
               else (take (Z.to_nat n) c, drop (Z.to_nat n) c :: rest)
           end
  end.

(** Number of bytes the peer will still deliver. *)
Definition pending (s : socket) : nat := length (concat s).

End Wire.

Import Wire.

(** ** JSON values as [json.loads] produces them *)

Module Json.

(** Python objects that [json.loads] can return.  A JSON number without
    fraction or exponent becomes an [int], any other number a [float]
    (an IEEE-754 double, here its specification-level value); an object
    becomes a [dict], kept as an association list read by first match. *)
Inductive json :=
| JNull
| JBool (b : bool)
| JInt (z : Z)
| JFloat (f : spec_float)
| JStr (s : string)
| JArr (l : list json)
| JObj (d : list (string * json)).

Fixpoint dict_get (key : string) (d : list (string * json)) : option json :=
  match d with
  | [] => None
  | (k, v) :: rest => if String.eqb k key then Some v else dict_get key rest
  end.

Definition is_some {A : Type} (o : option A) : bool :=
  match o with
  | Some _ => true
  | None => false
  end.

(** [key in payload]: membership in a dict, a list or a string;
    [TypeError] ([None]) for the other values. *)
Definition contains (payload : json) (key : string) : option bool :=
  match payload with
  | JObj d => Some (is_some (dict_get key d))
  | JArr l =>
      Some (existsb (fun v => match v with
                              | JStr s => String.eqb s key
                              | _ => false
                              end) l)
  | JStr s => Some (is_some (String.index 0 key s))
  | _ => None
  end.

(** [payload[key]] for a string key: the entry of a dict; [KeyError] or
    [TypeError] ([None]) otherwise. *)
Definition subscript (payload : json) (key : string) : option json :=
  match payload with
  | JObj d => dict_get key d
  | _ => None
  end.

(** [f == n] for a float [f] and an int [n]: Python compares the exact
    values. *)
Definition float_eq_int (f : spec_float) (n : Z) : bool :=
  match f with
  | S754_zero _ => n =? 0
  | S754_finite s m e =>
      let mz := if s then Z.neg m else Z.pos m in
      if 0 <=? e then mz * 2 ^ e =? n else mz =? n * 2 ^ (- e)
  | _ => false
  end.

(** [v == n] for an int [n]: [bool] is a subclass of [int]. *)
Definition py_eq_int (v : json) (n : Z) : bool :=
  match v with
  | JInt z => z =? n
  | JBool b => (if b then 1 else 0) =? n
  | JFloat f => float_eq_int f n
  | _ => false
  end.

Fixpoint all_eq_int (vs : list json) (ns : list Z) : bool :=
  match vs, ns with
  | [], [] => true
  | v :: vs', n :: ns' => py_eq_int v n && all_eq_int vs' ns'
  | _, _ => false
  end.

(** [v == ns] for a list of ints [ns]: only a list of the same length
    with pairwise equal elements compares equal. *)
Definition py_eq_int_list (v : json) (ns : list Z) : bool :=
  match v with
  | JArr vs => all_eq_int vs ns
  | _ => false
  end.

End Json.

Import Json.

(** ** xeon_handshake.py *)

Module xeon_handshake.

Local Open Scope string_scope.

Definition EXPECTED_CAMERAS : list Z := [0; 1]%Z.

Inductive event :=
| Log_no_data
| Json_loads (payload_bytes : bytes)
| Log_received (payload : json)
| Log_missing_keys
| Log_expected_cameras (got : json)
| Log_invalid_resolution
| Sendall (ack : json)
| Log_sent_ack
| Log_validation_failed
| Log_handshake_error.

Definition required_keys : list string :=
  ["resolution"; "fps"; "cameras"; "timestamp"].

Fixpoint all_in (payload : json) (keys : list string) : option bool :=
  match keys with
  | [] => Some true
  | key :: rest =>
      match contains payload key with
      | None => None
      | Some false => Some false
      | Some true => all_in payload rest
      end
  end.

(** [validate_payload(payload)]: the log lines it writes and its
    result, [None] when the body raises. *)
Definition validate_payload (payload : json) : list event * option bool :=
  match all_in payload required_keys with
  | None => ([], None)
  | Some false => ([Log_missing_keys], Some false)
  | Some true =>
      match subscript payload "cameras" with
      | None => ([], None)
      | Some cameras =>
          if negb (py_eq_int_list cameras EXPECTED_CAMERAS)
          then ([Log_expected_cameras cameras], Some false)
          else
            match subscript payload "resolution" with
            | None => ([], None)
            | Some (JArr [_; _]) => ([], Some true)
            | Some _ => ([Log_invalid_resolution], Some false)
            end
      end
  end.

(** Lines 60-67 of [handle_handshake], inside its [try]: what happens
    once [payload] has been parsed.  The reply handed to [sendall] is
    recorded as the value given to [json.dumps]. *)
Definition respond (payload : json) : list event :=
  let (logs, valid) := validate_payload payload in
  match valid with
  | None => logs ++ [Log_handshake_error]
  | Some true =>
      match subscript payload "timestamp" with
      | None => logs ++ [Log_handshake_error]
      | Some timestamp =>
          logs ++ [Sendall (JObj [("status", JStr "ACK");
                                  ("timestamp", timestamp)]);
                   Log_sent_ack]
      end
  | Some false => logs ++ [Log_validation_failed]
  end.

Section handle_handshake.

(** [json.loads(payload_bytes.decode('utf-8'))]; [None] when the
    decoding or the parsing raises. *)
Variable json_loads : bytes -> option json.

(** [handle_handshake()] from the accepted connection on: the value
    the function returns and the trace of its effects.  Every path
    through the Python function ends without a [return] value. *)
Definition handle_handshake (client : socket) : option json * list event :=
  let (length_bytes, client) := recv 4 client in
  match length_bytes with
  | [] => (None, [Log_no_data])
  | _ :: _ =>
      let length := int_from_bytes length_bytes in
      let (payload_bytes, client) := recv length client in
      match json_loads payload_bytes with
      | None => (None, [Json_loads payload_bytes; Log_handshake_error])
      | Some payload =>
          (None, Json_loads payload_bytes :: Log_received payload
                   :: respond payload)
      end
  end.

End handle_handshake.

(** The replies sent in a trace. *)
Definition acks (tr : list event) : list json :=
  omap (fun e => match e with Sendall a => Some a | _ => None end) tr.

End xeon_handshake.

(** ** xeon_stream.py *)

Module xeon_stream.

Definition BUFFER_SIZE : Z := 4096.

Inductive log :=
| Warn_incomplete_header
| Warn_closed_during_frame
| Err_decode (cam_id : Z).

(** Outcome of the payload [while] loop of [receive_frame]. *)
Inductive payload_read :=
| Out_of_fuel
| Closed (client : socket)
| Complete (frame_data : bytes) (client : socket).

(** [while bytes_received < frame_size: ...].  Every iteration that does
    not return takes at least one byte off the socket, so the number of
    pending bytes bounds the number of iterations. *)
Fixpoint recv_frame_data (fuel : nat) (frame_size bytes_received : Z)
         (frame_data : bytes) (client : socket) : payload_read :=
  match fuel with
  | O => Out_of_fuel
  | S fuel' =>
      if bytes_received <? frame_size then
        let (chunk, client') :=
          recv (Z.min BUFFER_SIZE (frame_size - bytes_received)) client in
        match chunk with
        | [] => Closed client'
        | _ :: _ =>
            recv_frame_data fuel' frame_size
              (bytes_received + Z.of_nat (length chunk))
              (frame_data ++ chunk) client'
        end
      else Complete frame_data client
  end.

Section receive_frame.

Variable image : Type.

(** [cv2.imdecode(np.frombuffer(frame_data, dtype=np.uint8),
    cv2.IMREAD_COLOR)]; [None] when it returns [None] or raises: both
    make [receive_frame] return [(None, None)]. *)
Variable imdecode : bytes -> option image.

(** [receive_frame(client)]: [(cam_id, frame)] or [(None, None)], the
    log lines written, and the socket afterwards.  The same function,
    word for word, is in [xeon_stream_depth.py], [server_stream_cal_1.py]
    and [server_stream_simple.py]. *)
Definition receive_frame (client : socket)
  : option (Z * image) * list log * socket :=
  let (header, client) := recv 8 client in
  match struct_unpack_II header with
  | None => (None, [Warn_incomplete_header], client)
  | Some (cam_id, frame_size) =>
      match recv_frame_data (S (pending client)) frame_size 0 [] client with
      | Out_of_fuel => (None, [], client)
      | Closed client' => (None, [Warn_closed_during_frame], client')
      | Complete frame_data client' =>
          match imdecode frame_data with
          | None => (None, [Err_decode cam_id], client')
          | Some frame => (Some (cam_id, frame), [], client')
          end
      end
  end.

Inductive event :=
| Log (l : log)
| Warn_skipping
| Imshow (cam_id : Z) (edges : image).

(** Where the [while True] loop of [main] stands after a number of
    iterations: still looping on the socket, or left through [break]. *)
Inductive status :=
| Running (client : socket)
| Stopped.

Variable cvtColor_BGR2GRAY : image -> image.
Variable Canny : image -> Z -> Z -> image.

(** [cv2.waitKey(1)] at its n-th call. *)
Variable waitKey : nat -> Z.

Definition apply_edge_detection (frame : image) : image :=
  let gray := cvtColor_BGR2GRAY frame in
  Canny gray 100 200.

(** [main()] from the accepted connection on: the first [fuel]
    iterations of its receiving loop;
    [calls] counts the [waitKey] calls made so far. *)
Fixpoint main (fuel calls : nat) (client : socket)
  : list event * status :=
  match fuel with
  | O => ([], Running client)
  | S fuel' =>
      let '(r, logs, client') := receive_frame client in
      match r with
      | None =>
          let (tr, st) := main fuel' calls client' in
          (map Log logs ++ Warn_skipping :: tr, st)
      | Some (cam_id, frame) =>
          let edges := apply_edge_detection frame in
          if Z.land (waitKey calls) 255 =? 113
          then (map Log logs ++ [Imshow cam_id edges], Stopped)
          else
            let (tr, st) := main fuel' (S calls) client' in
            (map Log logs ++ Imshow cam_id edges :: tr, st)
      end
  end.

End receive_frame.

End xeon_stream.

(** ** xeon_stream_depth.py *)

Module xeon_stream_depth.

(** The OpenCV and NumPy calls this file makes, with the float
    arithmetic of its depth formula.  A single-channel array gives its
    values through [pixels]; [CONFIG]'s two floats are fields too. *)
Record Cv := {
  image : Type;
  contour : Type;
  float : Type;
  imdecode : bytes -> option image;
  cvtColor_BGR2GRAY : image -> image;
  (** [cv2.StereoBM_create(numDisparities=16, blockSize=15).compute];
      [None] when it raises [cv2.error], as it does for frames of
      different sizes. *)
  StereoBM_compute : image -> image -> option image;
  (** [cv2.normalize(d, None, alpha=0, beta=255, norm_type=NORM_MINMAX,
      dtype=CV_8U)]. *)
  normalize : image -> image;
  Canny : image -> Z -> Z -> image;
  (** [cv2.findContours(edges, RETR_EXTERNAL, CHAIN_APPROX_SIMPLE)]. *)
  findContours : image -> list contour;
  shape : image -> Z * Z;
  contourArea : contour -> float;
  (** [cv2.boundingRect]: [(x, y, w, h)], none of them negative. *)
  boundingRect : contour -> Z * Z * Z * Z;
  pixels : image -> list (list Z);
  (** [np.mean] of 8-bit values. *)
  mean : list Z -> float;
  fmul : float -> float -> float;
  fdiv : float -> float -> float;
  fgt : float -> float -> bool;
  float_of_int : Z -> float;
  f0 : float;
  f0_1 : float;
  FOCAL_LENGTH : float;
  BASELINE : float;
  rectangle : image -> Z * Z -> Z * Z -> image;
  (** [cv2.putText] of the label [f"{depth_meters:.2f}m"]. *)
  putText : image -> float -> Z * Z -> image
}.

Section server.

Variable cv : Cv.

(** [compute_depth_map(left_frame, right_frame)]: [Some None] for the
    [None] it returns when a frame is missing, [None] when the block
    matcher raises. *)
Definition compute_depth_map (left_frame right_frame : option (image cv))
  : option (option (image cv)) :=
  match left_frame, right_frame with
  | Some left_frame, Some right_frame =>
      let left_gray := cvtColor_BGR2GRAY cv left_frame in
      let right_gray := cvtColor_BGR2GRAY cv right_frame in
      match StereoBM_compute cv left_gray right_gray with
      | None => None
      | Some disparity => Some (Some (normalize cv disparity))
      end
  | _, _ => Some None
  end.

(** [depth_map[y:y+h, x:x+w]], row after row. *)
Definition depth_roi (depth_map : image cv) (x y w h : Z) : list Z :=
  concat (map (fun row => take (Z.to_nat w) (drop (Z.to_nat x) row))
              (take (Z.to_nat h) (drop (Z.to_nat y) (pixels cv depth_map)))).

(** A box drawn on the output frame, with the depth written above it. *)
Definition label : Type := (Z * Z * Z * Z) * float cv.

(** Lines 94-107: the body of [for contour in contours]. *)
Definition annotate_contour (depth_map : image cv) (min_area : float cv)
           (st : image cv * list label) (c : contour cv)
  : image cv * list label :=
  if fgt cv (contourArea cv c) min_area then
    let '(x, y, w, h) := boundingRect cv c in
    let valid_depth := List.filter (fun v => 0 <? v) (depth_roi depth_map x y w h) in
    if (0 <? length valid_depth)%nat then
      let avg_disparity := mean cv valid_depth in
      if fgt cv avg_disparity (f0 cv) then
        let depth_meters :=
          fdiv cv (fmul cv (FOCAL_LENGTH cv) (BASELINE cv)) avg_disparity in
        (putText cv (rectangle cv st.1 (x, y) (x + w, y + h))
                 depth_meters (x, y - 10),
         st.2 ++ [((x, y, w, h), depth_meters)])
      else st
    else st
  else st.

(** Lines 83-108 for a frame and a depth map that are both there: the
    output frame, and the boxes and depths drawn on it, in order. *)
Definition annotate (frame depth_map : image cv) : image cv * list label :=
  let gray := cvtColor_BGR2GRAY cv frame in
  let edges := Canny cv gray 100 200 in
  let contours := findContours cv edges in
  let min_area :=
    fmul cv (fmul cv (f0_1 cv) (float_of_int cv (shape cv frame).1))
         (float_of_int cv (shape cv frame).2) in
  fold_left (annotate_contour depth_map min_area) contours (frame, []).

Definition detect_objects_and_depth (frame depth_map : option (image cv))
  : option (image cv) :=
  match frame, depth_map with
  | Some f, Some d => Some (annotate f d).1
  | _, _ => frame
  end.

(** The module-level names the two threads share. *)
Record globals := {
  latest_frames : gmap Z (option (image cv));
  latest_depth : option (image cv)
}.

Definition module_init : globals :=
  {| latest_frames := <[0 := None]> (<[1 := None]> ∅);
     latest_depth := None |}.

(** The names [main] binds itself.  [main] assigns [latest_depth] and
    has no [global] statement, so that name is local to [main]:
    [None] here stands for the unbound local. *)
Record locals := {
  main_latest_depth : option (option (image cv))
}.

Definition main_init : locals := {| main_latest_depth := None |}.

(** Line 180: [latest_frames[cam_id] = frame] writes into the shared
    dict. *)
Definition store (cam_id : Z) (frame : image cv) (g : globals) : globals :=
  {| latest_frames := <[cam_id := Some frame]> (latest_frames g);
     latest_depth := latest_depth g |}.

(** Lines 181-186, still under [with frame_lock]; [None] when a
    subscript raises [KeyError] or the block matcher raises
    [cv2.error]. *)
Definition refresh (g : globals) (l : locals) : option (globals * locals) :=
  let lf := latest_frames g in
  c0 ← lf !! 0;
  if c0 is Some _ then
    c1 ← lf !! 1;
    if c1 is Some _ then
      f0 ← lf !! 0;
      f1 ← lf !! 1;
      depth ← compute_depth_map f0 f1;
      a0 ← lf !! 0;
      let lf := <[0 := detect_objects_and_depth a0 depth]> lf in
      a1 ← lf !! 1;
      let lf := <[1 := detect_objects_and_depth a1 depth]> lf in
      Some ({| latest_frames := lf; latest_depth := latest_depth g |},
            {| main_latest_depth := Some depth |})
    else Some (g, l)
  else Some (g, l).

(** Whether the loop of [main] goes on, or an exception has left it
    through [except Exception]. *)
Inductive status :=
| Running
| Raised.

(** Lines 178-187: one pass of the loop body for a received frame.  An
    exception comes after line 180 has stored the frame. *)
Definition pass (cam_id : Z) (frame : image cv) (g : globals) (l : locals)
  : globals * locals * status :=
  match refresh (store cam_id frame g) l with
  | None => (store cam_id frame g, l, Raised)
  | Some (g', l') => (g', l', Running)
  end.

(** [main()] from the accepted connection on: the first [fuel]
    iterations of its loop, or fewer when an exception ends it. *)
Fixpoint main (fuel : nat) (client : socket) (g : globals) (l : locals)
  : socket * globals * locals * status :=
  match fuel with
  | O => (client, g, l, Running)
  | S fuel' =>
      let '(r, _, client') :=
        xeon_stream.receive_frame (image cv) (imdecode cv) client in
      match r with
      | None => main fuel' client' g l
      | Some (cam_id, frame) =>
          match pass cam_id frame g l with
          | (g', l', Running) => main fuel' client' g' l'
          | (g', l', Raised) => (client', g', l', Raised)
          end
      end
  end.

(** The route parameter of [/video_feed/<data_type>]: ['depth'], or a
    string that [int()] reads as a camera index. *)
Inductive data_type :=
| depth
| cam (cam_id : Z).

(** The frame one iteration of [generate_mjpeg_stream(data_type)]
    picks under the lock; it is encoded and yielded unless [None]. *)
Definition generate_mjpeg_stream (dt : data_type) (g : globals)
  : option (image cv) :=
  match dt with
  | depth => latest_depth g
  | cam cam_id =>
      match latest_frames g !! cam_id with
      | Some frame => frame
      | None => None
      end
  end.

End server.

End xeon_stream_depth.

(** ** server_stream_cal_1.py *)

Module server_stream_cal_1.

Local Open Scope string_scope.

Definition EXPECTED_CAMERA : Z := 0.

(** A polygon vertex as [approxPolyDP] returns it. *)
Definition point : Type := Z * Z.

Section server.

Variable image : Type.
Variable contour : Type.

(** Python floats (and NumPy's) with the operations the function
    uses on them. *)
Variable float : Type.
Variable fmul : float -> float -> float.
Variable fgt : float -> float -> bool.
Variable float_of_int : Z -> float.
Variable f0 f0_1 f0_04 : float.
Variable SQUARE_DIMS : float * float.

(** Lines 81-86: HSV conversion, [inRange] on the blue range, two
    erosions and two dilations. *)
Variable blue_mask : image -> image.
(** [cv2.findContours(mask, RETR_EXTERNAL, CHAIN_APPROX_SIMPLE)]. *)
Variable findContours : image -> list contour.
Variable shape : image -> Z * Z.
Variable contourArea : contour -> float.
Variable arcLength : contour -> bool -> float.
Variable approxPolyDP : contour -> float -> bool -> list point.
Variable boundingRect : list point -> Z * Z * Z * Z.
(** [cv2.solvePnP(obj_points, img_points, CAMERA_MATRIX, DIST_COEFFS)]:
    the success flag and the translation vector. *)
Variable solvePnP :
  list (float * float * float) -> list point -> bool * (float * float * float).
(** [drawContours] and [putText] on the output frame. *)
Variable draw_detection : image -> list point -> Z * Z -> float -> image.
Variable Canny : image -> Z -> Z -> image.
Variable cvtColor_BGR2GRAY : image -> image.

Definition obj_points : list (float * float * float) :=
  [ (f0, f0, f0);
    (SQUARE_DIMS.1, f0, f0);
    (SQUARE_DIMS.1, SQUARE_DIMS.2, f0);
    (f0, SQUARE_DIMS.2, f0) ].

(** The [for contour in contours] loop, lines 95-121.  The [break] is
    the last statement of the [if len(approx) == 4] block. *)
Fixpoint scan (min_area : float) (contours : list contour)
         (output_frame : image) (distance : option float)
  : image * option float :=
  match contours with
  | [] => (output_frame, distance)
  | contour :: rest =>
      if fgt (contourArea contour) min_area then
        let peri := arcLength contour true in
        let approx := approxPolyDP contour (fmul f0_04 peri) true in
        if (length approx =? 4)%nat then
          let '(x, y, w, h) := boundingRect approx in
          let '(ret, (_, _, tz)) := solvePnP obj_points approx in
          if ret then (draw_detection output_frame approx (x, (y - 10)%Z) tz, Some tz)
          else (output_frame, distance)
        else scan min_area rest output_frame distance
      else scan min_area rest output_frame distance
  end.

(** [detect_framing_square(frame)]: [(output_frame, edges, distance)];
    [None] stands for the two-element [(None, None)] returned for a
    missing frame. *)
Definition detect_framing_square (frame : option image)
  : option (image * image * option float) :=
  match frame with
  | None => None
  | Some frame =>
      let mask := blue_mask frame in
      let contours := findContours mask in
      let min_area :=
        fmul (fmul f0_1 (float_of_int (shape frame).1))
             (float_of_int (shape frame).2) in
      let (output_frame, distance) := scan min_area contours frame None in
      let edges := Canny (cvtColor_BGR2GRAY frame) 100 200 in
      Some (output_frame, edges, distance)
  end.

Variable imdecode : bytes -> option image.

(** Module-level names read by the web thread. *)
Record globals := {
  latest_frame : option image;
  latest_edges : option image
}.

Definition module_init : globals :=
  {| latest_frame := None; latest_edges := None |}.

(** [main] assigns [latest_frame] and [latest_edges] and has no
    [global] statement: both names are local to [main]. *)
Record locals := {
  main_latest_frame : option image;
  main_latest_edges : option image
}.

Definition main_init : locals :=
  {| main_latest_frame := None; main_latest_edges := None |}.

(** Lines 187-199: one pass of the loop body for a received frame;
    [None] when unpacking the detector's result raises. *)
Definition update (cam_id : Z) (frame : image) (g : globals) (l : locals)
  : option (globals * locals) :=
  if negb (cam_id =? EXPECTED_CAMERA)%Z then Some (g, l)
  else
    match detect_framing_square (Some frame) with
    | None => None
    | Some (output_frame, edges, _) =>
        Some (g, {| main_latest_frame := Some output_frame;
                    main_latest_edges := Some edges |})
    end.

Inductive status :=
| Running
| Raised.

(** [main()] from the accepted connection on: the first [fuel]
    iterations of its loop. *)
Fixpoint main (fuel : nat) (client : socket) (g : globals) (l : locals)
  : socket * globals * locals * status :=
  match fuel with
  | O => (client, g, l, Running)
  | S fuel' =>
      let '(r, _, client') := xeon_stream.receive_frame image imdecode client in
      match r with
      | None => main fuel' client' g l
      | Some (cam_id, frame) =>
          match update cam_id frame g l with
          | None => (client', g, l, Raised)
          | Some (g', l') => main fuel' client' g' l'
          end
      end
  end.

(** The frame one iteration of [generate_mjpeg_stream(data_type)]
    picks under the lock. *)
Definition generate_mjpeg_stream (data_type : string) (g : globals)
  : option image :=
  if String.eqb data_type "frame" then latest_frame g else latest_edges g.

End server.

End server_stream_cal_1.

(** ** Vocabulary of the properties *)

Module Vocabulary.

Import xeon_handshake.
Local Open Scope string_scope.

(** The camera identifiers of a payload, taken as a set, are the
    expected ones: every listed value equals an expected index and
    every expected index is listed. *)
Definition camera_set_matches (payload : json) : bool :=
  match subscript payload "cameras" with
  | Some (JArr vs) =>
      forallb (fun v => existsb (py_eq_int v) EXPECTED_CAMERAS) vs
      && forallb (fun n => existsb (fun v => py_eq_int v n) vs) EXPECTED_CAMERAS
  | _ => false
  end.

Definition two_element_resolution (payload : json) : bool :=
  match subscript payload "resolution" with
  | Some (JArr [_; _]) => true
  | _ => false
  end.

(** A payload with the four fields of a CaptureConfig. *)
Definition capture_config (payload : json) : bool :=
  match payload with
  | JObj d => forallb (fun key => is_some (dict_get key d)) required_keys
  | _ => false
  end.

(** What the server accepts: an object with the four fields whose
    cameras are the sequence 0, 1 and whose resolution is a list of
    two elements. *)
Definition accepted_shape (payload : json) : Prop :=
  exists d r0 r1 fps c0 c1 ts,
    payload = JObj d
    /\ dict_get "resolution" d = Some (JArr [r0; r1])
    /\ dict_get "fps" d = Some fps
    /\ dict_get "cameras" d = Some (JArr [c0; c1])
    /\ py_eq_int c0 0 = true /\ py_eq_int c1 1 = true
    /\ dict_get "timestamp" d = Some ts.

Definition ack (timestamp : json) : json :=
  JObj [("status", JStr "ACK"); ("timestamp", timestamp)].

(** The payload of the end-to-end scenario, with a float timestamp. *)
Definition config (cameras : list json) : json :=
  JObj [ ("resolution", JArr [JInt 320; JInt 240]);
         ("fps", JInt 15);
         ("cameras", JArr cameras);
         ("timestamp", JFloat (S754_finite false 6800000001 (-2))) ].

(** The same payload as the capture node serialises it:
    a JSON object of 84 bytes. *)
Definition quoted (s : string) : bytes :=
  ([Byte.x22] ++ list_byte_of_string s ++ [Byte.x22])%list.

Definition config_bytes : bytes :=
  (list_byte_of_string "{" ++ quoted "resolution"
   ++ list_byte_of_string ": [320, 240], " ++ quoted "fps"
   ++ list_byte_of_string ": 15, " ++ quoted "cameras"
   ++ list_byte_of_string ": [0, 1], " ++ quoted "timestamp"
   ++ list_byte_of_string ": 1700000000.25}")%list.

Fixpoint bytes_eqb (a b : bytes) : bool :=
  match a, b with
  | [], [] => true
  | x :: a', y :: b' => Byte.eqb x y && bytes_eqb a' b'
  | _, _ => false
  end.

(** A stand-in for [json.loads] that reads that one message. *)
Definition loads_config (b : bytes) : option json :=
  if bytes_eqb b config_bytes then Some (config [JInt 0; JInt 1]) else None.

Section detector.

Variable contour : Type.
Variable float : Type.
Variable fmul : float -> float -> float.
Variable fgt : float -> float -> bool.
Variable f0 f0_04 : float.
Variable SQUARE_DIMS : float * float.
Variable contourArea : contour -> float.
Variable arcLength : contour -> bool -> float.
Variable approxPolyDP : contour -> float -> bool -> list server_stream_cal_1.point.
Variable solvePnP :
  list (float * float * float) -> list server_stream_cal_1.point
  -> bool * (float * float * float).

(** The polygon the detector approximates a contour to. *)
Definition polygon (c : contour) : list server_stream_cal_1.point :=
  approxPolyDP c (fmul f0_04 (arcLength c true)) true.

(** A contour the loop stops at: large and four-sided. *)
Definition target (min_area : float) (c : contour) : bool :=
  fgt (contourArea c) min_area && (length (polygon c) =? 4)%nat.

(** The distance the pose of a contour gives, if the solver succeeds. *)
Definition pose_distance (c : contour) : option float :=
  let '(ret, (_, _, tz)) :=
    solvePnP (server_stream_cal_1.obj_points float f0 SQUARE_DIMS) (polygon c) in
  if ret then Some tz else None.

End detector.

(** A concrete stand-in for the image codec: a frame is kept as its
    bytes and decodes when it starts with the JPEG marker FF D8; edge
    detection and colour conversion leave it as it is, and no key is
    ever pressed. *)
Module ToyCodec.

Definition image : Type := bytes.

Definition imdecode (frame_data : bytes) : option image :=
  match frame_data with
  | Byte.xff :: Byte.xd8 :: _ => Some frame_data
  | _ => None
  end.

Definition main :=
  xeon_stream.main image imdecode (fun frame => frame)
    (fun gray _ _ => gray) (fun _ => -1).

End ToyCodec.

(** A concrete stand-in for the OpenCV calls of the fiducial detector:
    a frame of 10 x 10 pixels is given by its external contours, each
    with its area and its polygon approximation; every quadrilateral is
    solved to a pose two metres away. *)
Module Toy.

Definition contour : Type := Q * list server_stream_cal_1.point.
Definition image : Type := list contour.

Definition fgt (a b : Q) : bool := negb (Qle_bool a b).

Definition detect_framing_square (frame : option image) :=
  server_stream_cal_1.detect_framing_square
    image contour Q Qmult fgt inject_Z 0%Q (1 # 10)%Q (4 # 100)%Q
    ((6096 # 10000)%Q, (4064 # 10000)%Q)
    (fun frame => frame)
    (fun mask => mask)
    (fun _ => (10, 10))
    (fun c => c.1)
    (fun _ _ => 0%Q)
    (fun c _ _ => c.2)
    (fun _ => (0, 0, 0, 0))
    (fun _ _ => (true, (0%Q, 0%Q, 2%Q)))
    (fun frame _ _ _ => frame)
    (fun frame _ _ => frame)
    (fun frame => frame)
    frame.

Definition pentagon : contour :=
  (18%Q, [(0, 0); (4, 0); (5, 2); (4, 4); (0, 4)]).
Definition quadrilateral : contour :=
  (16%Q, [(5, 5); (9, 5); (9, 9); (5, 9)]).

(** 10% of the frame area. *)
Definition min_area : Q := ((1 # 10) * inject_Z 10 * inject_Z 10)%Q.

End Toy.

End Vocabulary.

Import Vocabulary.

(** ** Frames on the wire *)

Module Framing.

(** One frame as it travels: the 8-byte header, the payload bytes that
    share the header's segment, and the segments with the rest of the
    payload. *)
Record wire_frame := {
  wf_header : bytes;
  wf_first : bytes;
  wf_rest : list bytes
}.

Definition wf_payload (f : wire_frame) : bytes :=
  wf_first f ++ concat (wf_rest f).

Definition wf_segments (f : wire_frame) : socket :=
  (wf_header f ++ wf_first f) :: wf_rest f.

(** The header is whole and announces the camera and the payload length;
    no segment of the payload is empty. *)
Definition well_framed (f : wire_frame) (cam_id : Z) : Prop :=
  struct_unpack_II (wf_header f)
  = Some (cam_id, Z.of_nat (length (wf_payload f)))
  /\ Forall (fun c => c <> []) (wf_rest f).

Section events.

Variable image : Type.
Variable imdecode : bytes -> option image.
Variable cvtColor_BGR2GRAY : image -> image.
Variable Canny : image -> Z -> Z -> image.

(** What one pass of the loop of [xeon_stream.main] records for a
    well-framed frame. *)
Definition frame_events (fc : wire_frame * Z) : list (xeon_stream.event image) :=
  match imdecode (wf_payload fc.1) with
  | Some frame =>
      [xeon_stream.Imshow image fc.2
         (xeon_stream.apply_edge_detection image cvtColor_BGR2GRAY Canny frame)]
  | None =>
      [xeon_stream.Log image (xeon_stream.Err_decode fc.2);
       xeon_stream.Warn_skipping image]
  end.

End events.

End Framing.

Import Framing.

(** ** States of the stereo server's cache *)

Module Cache.

Section depth.

Variable cv : xeon_stream_depth.Cv.

(** Both camera keys are in the dict (with a frame or with [None]). *)
Definition keys_present (g : xeon_stream_depth.globals cv) : Prop :=
  is_Some (xeon_stream_depth.latest_frames cv g !! 0)
  /\ is_Some (xeon_stream_depth.latest_frames cv g !! 1).

(** Both camera slots hold a frame. *)
Definition both_filled (g : xeon_stream_depth.globals cv) : Prop :=
  (exists a, xeon_stream_depth.latest_frames cv g !! 0 = Some (Some a))
  /\ (exists b, xeon_stream_depth.latest_frames cv g !! 1 = Some (Some b)).

(** [main] has bound its depth map exactly when both slots hold a frame. *)
Definition depth_tracks_slots (g : xeon_stream_depth.globals cv)
           (l : xeon_stream_depth.locals cv) : Prop :=
  xeon_stream_depth.main_latest_depth cv l <> None <-> both_filled g.

(** The block matcher raises on the two cached camera frames. *)
Definition matcher_raises (g : xeon_stream_depth.globals cv) : Prop :=
  exists a b,
    xeon_stream_depth.latest_frames cv g !! 0 = Some (Some a)
    /\ xeon_stream_depth.latest_frames cv g !! 1 = Some (Some b)
    /\ xeon_stream_depth.StereoBM_compute cv
         (xeon_stream_depth.cvtColor_BGR2GRAY cv a)
         (xeon_stream_depth.cvtColor_BGR2GRAY cv b) = None.

(** The state lines 183-186 leave when the block matcher returns the
    disparity [d] for the cached frames [a] and [b]. *)
Definition refreshed (g : xeon_stream_depth.globals cv)
           (a b d : xeon_stream_depth.image cv)
  : xeon_stream_depth.globals cv * xeon_stream_depth.locals cv :=
  let depth_map := xeon_stream_depth.normalize cv d in
  ({| xeon_stream_depth.latest_frames :=
        <[1 := Some (xeon_stream_depth.annotate cv b depth_map).1]>
          (<[0 := Some (xeon_stream_depth.annotate cv a depth_map).1]>
             (xeon_stream_depth.latest_frames cv g));
      xeon_stream_depth.latest_depth := xeon_stream_depth.latest_depth cv g |},
   {| xeon_stream_depth.main_latest_depth := Some (Some depth_map) |}).

End depth.

End Cache.

Import Cache.

(** ** pi-scripts/pi_handshake.py *)

Module pi_handshake.

Local Open Scope string_scope.

Definition BUFFER_SIZE : Z := 4096.

(** The dict of lines 36-41, with [CONFIG]'s resolution tuple and camera
    list as [json.dumps] writes them, and [now] for [time.time()]. *)
Definition payload (now : spec_float) : json :=
  JObj [ ("resolution", JArr [JInt 320; JInt 240]);
         ("fps", JInt 15);
         ("cameras", JArr [JInt 0; JInt 1]);
         ("timestamp", JFloat now) ].

(** How [client.connect] ends: with one of the two exceptions the
    function names, or with a connection, given by what the server
    will send on it. *)
Inductive connection :=
| Timed_out
| Refused
| Connected (reply : socket).

Section send_handshake.

(** [json.dumps(v).encode('utf-8')]. *)
Variable json_dumps : json -> bytes.
(** [json.loads(b.decode('utf-8'))]; [None] when it raises. *)
Variable json_loads : bytes -> option json.

(** [ack.get('status') == 'ACK']; [None] for the [AttributeError] of a
    reply that is not a dict. *)
Definition status_is_ack (ack : json) : option bool :=
  match ack with
  | JObj d =>
      Some match dict_get "status" d with
           | Some (JStr s) => String.eqb s "ACK"
           | _ => false
           end
  | _ => None
  end.

(** [send_handshake()]: its result and the segments handed to
    [sendall].  Every exception ends in [return False]; [to_bytes]
    raises [OverflowError] from 2^32 on. *)
Definition send_handshake (now : spec_float) (conn : connection)
  : bool * list bytes :=
  match conn with
  | Timed_out => (false, [])
  | Refused => (false, [])
  | Connected reply =>
      let payload_bytes := json_dumps (payload now) in
      if (4294967296 <=? Z.of_nat (length payload_bytes))%Z then (false, [])
      else
        let sent :=
          [to_bytes4 (Z.of_nat (length payload_bytes)); payload_bytes] in
        let (ack_bytes, _) := recv BUFFER_SIZE reply in
        match json_loads ack_bytes with
        | None => (false, sent)
        | Some ack =>
            match status_is_ack ack with
            | Some true => (true, sent)
            | Some false => (false, sent)
            | None => (false, sent)
            end
        end
  end.

End send_handshake.

End pi_handshake.

(** ** server.py and client.py *)

Module server.

Local Open Scope string_scope.

Inductive event :=
| Sendall (data : bytes)
| Print_expecting (image_size : Z)
| Saved (image_data : bytes)
| Print_description (text : string)
| Print_connection_error (message : string)
| Print_unexpected_error.

(** Outcome of the image [while] loop of [handle_client]. *)
Inductive image_read :=
| Out_of_fuel
| Disconnected (conn : socket)
| Received (image_data : bytes) (conn : socket).

(** [while len(image_data) < image_size: packet = conn.recv(4096) ...]. *)
Fixpoint recv_image (fuel : nat) (image_size : Z) (image_data : bytes)
         (conn : socket) : image_read :=
  match fuel with
  | O => Out_of_fuel
  | S fuel' =>
      if (Z.of_nat (length image_data) <? image_size)%Z then
        let (packet, conn') := recv 4096 conn in
        match packet with
        | [] => Disconnected conn'
        | _ :: _ => recv_image fuel' image_size (image_data ++ packet)%list conn'
        end
      else Received image_data conn
  end.

Section handle_client.

(** [get_image_description(image_data)]: the text it returns, also when
    the request fails; [None] when it raises. *)
Variable get_image_description : bytes -> option string.

(** [handle_client(conn, addr)]: what is sent, saved and printed.
    Writing the file is taken to succeed. *)
Definition handle_client (conn : socket) : list event :=
  let (image_size_bytes, conn) := recv 4 conn in
  match image_size_bytes with
  | [] =>
      [Sendall (list_byte_of_string "CAPTURE");
       Print_connection_error "Client disconnected before sending image size."]
  | _ :: _ =>
      let image_size := int_from_bytes image_size_bytes in
      match recv_image (S (pending conn)) image_size [] conn with
      | Out_of_fuel =>
          [Sendall (list_byte_of_string "CAPTURE"); Print_expecting image_size]
      | Disconnected _ =>
          [Sendall (list_byte_of_string "CAPTURE"); Print_expecting image_size;
           Print_connection_error "Client disconnected during image transfer."]
      | Received image_data _ =>
          match get_image_description image_data with
          | None =>
              [Sendall (list_byte_of_string "CAPTURE");
               Print_expecting image_size; Saved image_data;
               Print_unexpected_error]
          | Some description =>
              [Sendall (list_byte_of_string "CAPTURE");
               Print_expecting image_size; Saved image_data;
               Print_description description;
               Sendall (list_byte_of_string "Image received and analyzed by AI")]
          end
      end
  end.

End handle_client.

(** client.py, line 22: the single message [run_client] sends for an
    encoded image, [len(img_bytes).to_bytes(4, 'big') + img_bytes.tobytes()]. *)
Definition client_message (img_bytes : bytes) : bytes :=
  (to_bytes4 (Z.of_nat (length img_bytes)) ++ img_bytes)%list.

(** The images a trace has saved. *)
Definition saved (tr : list event) : list bytes :=
  omap (fun e => match e with Saved d => Some d | _ => None end) tr.

End server.

(** ** server_stream_simple.py *)

Module server_stream_simple.

Local Open Scope string_scope.

Definition EXPECTED_CAMERA : Z := 0.

Section server.

Variable image : Type.
Variable imdecode : bytes -> option image.
Variable cvtColor_BGR2GRAY : image -> image.
Variable Canny : image -> Z -> Z -> image.

(** [apply_edge_detection(frame)]: [(frame, edges)], or [(None, None)]
    for a missing frame. *)
Definition apply_edge_detection (frame : option image)
  : option image * option image :=
  match frame with
  | None => (None, None)
  | Some frame =>
      let gray := cvtColor_BGR2GRAY frame in
      let edges := Canny gray 100 200 in
      (Some frame, Some edges)
  end.

Record globals := {
  latest_frame : option image;
  latest_edges : option image
}.

Definition module_init : globals :=
  {| latest_frame := None; latest_edges := None |}.

(** As in the other servers, [main] assigns [latest_frame] and
    [latest_edges] without a [global] statement. *)
Record locals := {
  main_latest_frame : option image;
  main_latest_edges : option image
}.

Definition main_init : locals :=
  {| main_latest_frame := None; main_latest_edges := None |}.

(** Lines 130-141: one pass of the loop body for a received frame. *)
Definition update (cam_id : Z) (frame : image) (g : globals) (l : locals)
  : globals * locals :=
  if negb (cam_id =? EXPECTED_CAMERA)%Z then (g, l)
  else
    let (output_frame, edges) := apply_edge_detection (Some frame) in
    (g, {| main_latest_frame := output_frame; main_latest_edges := edges |}).

(** [main()] from the accepted connection on: the first [fuel]
    iterations of its loop. *)
Fixpoint main (fuel : nat) (client : socket) (g : globals) (l : locals)
  : socket * globals * locals :=
  match fuel with
  | O => (client, g, l)
  | S fuel' =>
      let '(r, _, client') := xeon_stream.receive_frame image imdecode client in
      match r with
      | None => main fuel' client' g l
      | Some (cam_id, frame) =>
          let (g', l') := update cam_id frame g l in
          main fuel' client' g' l'
      end
  end.

Definition generate_mjpeg_stream (data_type : string) (g : globals)
  : option image :=
  if String.eqb data_type "frame" then latest_frame g else latest_edges g.

End server.

End server_stream_simple.

(** ** A toy JSON codec for the two handshake messages *)

Module ToyJson.

Local Open Scope string_scope.

Definition now : spec_float := S754_finite false 6800000001 (-2).

Definition ack_bytes : bytes :=
  (list_byte_of_string "{" ++ quoted "status"
   ++ list_byte_of_string ": " ++ quoted "ACK"
   ++ list_byte_of_string ", " ++ quoted "timestamp"
   ++ list_byte_of_string ": 1700000000.25}")%list.

(** Writes the reply for anything that starts with a status, the config
    message for everything else. *)
Definition dumps (v : json) : bytes :=
  match v with
  | JObj (("status", _) :: _) => ack_bytes
  | _ => config_bytes
  end.

Definition loads (b : bytes) : option json :=
  if bytes_eqb b config_bytes then Some (pi_handshake.payload now)
  else if bytes_eqb b ack_bytes then Some (ack (JFloat now))
  else None.

End ToyJson.

(** ** How a handshake message reaches the server *)

Module Delivery.

(** The length prefix and the body each arrive unsplit: in a segment of
    its own each, or both in the same segment; [extra] stands for
    whatever follows the body in its segment. *)
Inductive arrives_whole (prefix body : bytes) : socket -> Prop :=
| in_two_segments (extra : bytes) (rest : socket) :
    arrives_whole prefix body (prefix :: (body ++ extra) :: rest)
| in_one_segment (extra : bytes) (rest : socket) :
    length prefix = 4%nat ->
    arrives_whole prefix body ((prefix ++ body ++ extra) :: rest).



End Delivery.

Import Delivery.

(** ** Frames shown by the stream viewer *)

Module Shown.

Section shown.

Variable image : Type.

(** The number of [imshow] calls in a trace. *)
Definition shown (tr : list (xeon_stream.event image)) : nat :=
  length (List.filter (fun e => match e with
                                | xeon_stream.Imshow _ _ _ => true
                                | _ => false
                                end) tr).

End shown.

End Shown.

Import Shown.

(** ** A synthetic stereo pair and a stand-in for the OpenCV calls *)

Module ToyStereo.

Definition image : Type := list (list Z).
Definition contour : Type := (Z * Z * Z * Z) * Q.

(** The left view: 8 rows of 16 pixels, no value twice in a row. *)
Definition left : image :=
  map (fun r => map (fun c => 10 * Z.of_nat c + Z.of_nat r + 1) (seq 0 16))
      (seq 0 8).

(** The view of a camera further to the right: every point sits [d]
    pixels further to the left, the uncovered border is black. *)
Definition shifted (d : nat) (view : image) : image :=
  map (fun row => drop d row ++ replicate d 0) view.

Definition right : image := shifted 4 left.

(** Block matching with blocks of one pixel and 16 disparity levels: the
    disparity of the first match, in the matcher's fixed point (times
    16), and -16 where nothing matches. *)
Definition match_pixel (right_row : list Z) (c : nat) (v : Z) : Z :=
  match List.find (fun d => (d <=? c)%nat
                            && match right_row !! (c - d)%nat with
                               | Some u => u =? v
                               | None => false
                               end) (seq 0 16) with
  | Some d => 16 * Z.of_nat d
  | None => -16
  end.

Definition StereoBM_compute (l r : image) : option image :=
  if bool_decide (map length l = map length r)
  then Some (zip_with (fun lrow rrow => imap (match_pixel rrow) lrow) l r)
  else None.

(** Min-max scaling to 0..255, rounded to the nearest integer. *)
Definition normalize (d : image) : image :=
  let vs := concat d in
  let mn := fold_right Z.min (hd 0 vs) vs in
  let mx := fold_right Z.max (hd 0 vs) vs in
  map (map (fun v => if mx =? mn then 0
                     else ((v - mn) * 510 + (mx - mn)) / (2 * (mx - mn)))) d.

(** One object is found in every frame: the box of columns 4 to 15 over
    all 8 rows, with area 96.  Drawing a box whitens its corner pixel. *)
Definition cv : xeon_stream_depth.Cv :=
  {| xeon_stream_depth.image := image;
     xeon_stream_depth.contour := contour;
     xeon_stream_depth.float := Q;
     xeon_stream_depth.imdecode := fun b => Some [map byte_to_Z b];
     xeon_stream_depth.cvtColor_BGR2GRAY := fun frame => frame;
     xeon_stream_depth.StereoBM_compute := StereoBM_compute;
     xeon_stream_depth.normalize := normalize;
     xeon_stream_depth.Canny := fun gray _ _ => gray;
     xeon_stream_depth.findContours := fun _ => [((4, 0, 12, 8), 96%Q)];
     xeon_stream_depth.shape :=
       fun frame => (Z.of_nat (length frame), Z.of_nat (length (hd [] frame)));
     xeon_stream_depth.contourArea := fun c => c.2;
     xeon_stream_depth.boundingRect := fun c => c.1;
     xeon_stream_depth.pixels := fun d => d;
     xeon_stream_depth.mean :=
       fun vs => Qred (inject_Z (fold_right Z.add 0 vs)
                       / inject_Z (Z.of_nat (length vs)));
     xeon_stream_depth.fmul := fun a b => Qred (a * b);
     xeon_stream_depth.fdiv := fun a b => Qred (a / b);
     xeon_stream_depth.fgt := fun a b => negb (Qle_bool a b);
     xeon_stream_depth.float_of_int := inject_Z;
     xeon_stream_depth.f0 := 0%Q;
     xeon_stream_depth.f0_1 := (1 # 10)%Q;
     xeon_stream_depth.FOCAL_LENGTH := 500%Q;
     xeon_stream_depth.BASELINE := (1 # 10)%Q;
     xeon_stream_depth.rectangle :=
       fun frame corner _ =>
         alter (fun row => <[Z.to_nat corner.1 := 255]> row)
               (Z.to_nat corner.2) frame;
     xeon_stream_depth.putText := fun frame _ _ => frame |}.

(** The toy views cached for both cameras, as two passes of the loop
    leave them. *)
Definition toy_right_cached : xeon_stream_depth.globals cv :=
  xeon_stream_depth.store cv 1 right (xeon_stream_depth.module_init cv).

Definition toy_both_cached : xeon_stream_depth.globals cv :=
  xeon_stream_depth.store cv 0 left toy_right_cached.

(** The disparities the toy matcher returns for the toy views. *)
Definition toy_disparity : image :=
  default [] (StereoBM_compute left right).

Definition toy_disparity_again : image :=
  default []
    (StereoBM_compute
       (xeon_stream_depth.annotate cv left (normalize toy_disparity)).1 right).

(** Two streams of one frame per camera, each frame one row of pixels:
    three pixels for both cameras, and three pixels for camera 0 with
    two for camera 1. *)
Definition toy_stream_pair : socket :=
  [ to_bytes4 0 ++ to_bytes4 3 ++ [Byte.x01; Byte.x02; Byte.x03];
    to_bytes4 1 ++ to_bytes4 3 ++ [Byte.x02; Byte.x03; Byte.x00] ].

Definition toy_stream_mismatched : socket :=
  [ to_bytes4 0 ++ to_bytes4 3 ++ [Byte.x01; Byte.x02; Byte.x03];
    to_bytes4 1 ++ to_bytes4 2 ++ [Byte.x02; Byte.x03] ].

End ToyStereo.

(** ** Properties of the framing codec *)

Lemma byte_to_Z_of_Z (z : Z) : byte_to_Z (byte_of_Z z) = z mod 256.
Proof.
  unfold byte_to_Z, byte_of_Z.
  assert (Hr : 0 <= z mod 256 < 256) by (apply Z.mod_pos_bound; lia).
  destruct (Byte.of_N (Z.to_N (z mod 256))) as [b|] eqn:E.
  - apply Byte.to_of_N in E. rewrite E. lia.
  - apply Byte.of_N_None_iff in E. lia.
Qed.

Lemma int_from_bytes_to_bytes4 (n : Z) :
  0 <= n < 4294967296 -> int_from_bytes (to_bytes4 n) = n.
Proof.
  intros Hn. unfold int_from_bytes, to_bytes4. simpl.
  rewrite !byte_to_Z_of_Z.
  Z.to_euclidean_division_equations. lia.
Qed.

(** C8. Header round trip: every pair of unsigned 32-bit integers is
    recovered by decoding its 8-byte big-endian header. *)
Theorem header_round_trip (id len : Z) :
  0 <= id < 4294967296 -> 0 <= len < 4294967296 ->
  decodeHeader (encodeHeader id len) = Some (id, len).
Proof.
  intros Hid Hlen.
  unfold decodeHeader, encodeHeader, struct_unpack_II.
  change (to_bytes4 id ++ to_bytes4 len) with
    [ byte_of_Z (id / 16777216); byte_of_Z (id / 65536);
      byte_of_Z (id / 256); byte_of_Z id;
      byte_of_Z (len / 16777216); byte_of_Z (len / 65536);
      byte_of_Z (len / 256); byte_of_Z len ].
  cbv beta iota.
  pose proof (int_from_bytes_to_bytes4 id Hid) as E1.
  pose proof (int_from_bytes_to_bytes4 len Hlen) as E2.
  unfold to_bytes4 in E1, E2. rewrite E1, E2. reflexivity.
Qed.

Lemma header_round_trip_witness :
  decodeHeader (encodeHeader 0 9000) = Some (0, 9000).
Proof. apply header_round_trip; lia. Defined.

(** ** Properties of the handshake server *)

Section handshake_properties.

Import xeon_handshake.
Local Open Scope string_scope.

Lemma respond_accepted (p : json) :
  accepted_shape p ->
  exists ts, subscript p "timestamp" = Some ts
             /\ respond p = [Sendall (ack ts); Log_sent_ack].
Proof.
  intros (d & r0 & r1 & fps & c0 & c1 & ts & -> & Hr & Hf & Hc & H0 & H1 & Ht).
  exists ts. split; [exact Ht|].
  unfold respond, validate_payload, required_keys, all_in, contains, subscript.
  rewrite Hr, Hf, Hc, Ht. simpl. rewrite H0, H1. reflexivity.
Qed.

Lemma respond_ack_inv (p : json) :
  acks (respond p) <> [] -> accepted_shape p.
Proof.
  unfold respond, validate_payload, required_keys, all_in, contains, subscript.
  destruct p as [ | b | z | f | s | l | d ]; try (simpl; congruence).
  - repeat (match goal with
            | |- context [is_some ?o] => destruct (is_some o)
            end; try (simpl; congruence)).
  - repeat (match goal with
            | |- context [existsb ?f ?l] => destruct (existsb f l)
            end; try (simpl; congruence)).
  - destruct (dict_get "resolution" d) as [res|] eqn:Hr; [|simpl; congruence].
    destruct (dict_get "fps" d) as [fps|] eqn:Hf; [|simpl; congruence].
    destruct (dict_get "cameras" d) as [cams|] eqn:Hc; [|simpl; congruence].
    destruct (dict_get "timestamp" d) as [ts|] eqn:Ht; [|simpl; congruence].
    cbn [is_some].
    destruct (py_eq_int_list cams EXPECTED_CAMERAS) eqn:Hcams;
      [|simpl; congruence].
    cbn [negb].
    destruct cams as [ | | | | | vs | ]; try discriminate Hcams.
    destruct vs as [|c0 vs]; [discriminate Hcams|].
    simpl in Hcams. destruct (py_eq_int c0 0) eqn:H0; [|discriminate Hcams].
    destruct vs as [|c1 vs]; [discriminate Hcams|].
    simpl in Hcams. destruct (py_eq_int c1 1) eqn:H1; [|discriminate Hcams].
    destruct vs as [|c2 vs]; [|discriminate Hcams].
    destruct res as [ | | | | | rs | ]; try (simpl; congruence).
    destruct rs as [|r0 [|r1 [|r2 rs]]]; try (simpl; congruence).
    intros _. exists d, r0, r1, fps, c0, c1, ts. repeat split; assumption.
Qed.

Lemma accepted_shape_camera_set (p : json) :
  accepted_shape p -> camera_set_matches p = true.
Proof.
  intros (d & r0 & r1 & fps & c0 & c1 & ts & -> & Hr & Hf & Hc & H0 & H1 & Ht).
  unfold camera_set_matches, subscript. rewrite Hc. simpl.
  rewrite H0, H1. simpl. rewrite !orb_true_r. reflexivity.
Qed.

Lemma validate_true_ack (p : json) :
  (validate_payload p).2 = Some true -> acks (respond p) <> [].
Proof.
  unfold respond. destruct (validate_payload p) as [logs v] eqn:E.
  simpl. intros ->.
  assert (Hts : exists ts, subscript p "timestamp" = Some ts).
  { revert E.
    unfold validate_payload, required_keys, all_in, contains, subscript.
    destruct p as [ | b | z | f | s | l | d ]; try congruence.
    - repeat (match goal with
              | |- context [is_some ?o] => destruct (is_some o)
              end; try congruence).
    - repeat (match goal with
              | |- context [existsb ?f ?l] => destruct (existsb f l)
              end; try congruence).
    - destruct (dict_get "resolution" d); [|simpl; congruence].
      destruct (dict_get "fps" d); [|simpl; congruence].
      destruct (dict_get "cameras" d); [|simpl; congruence].
      destruct (dict_get "timestamp" d) as [ts|]; [|simpl; congruence].
      intros _. exists ts. reflexivity. }
  destruct Hts as [ts ->].
  unfold acks. rewrite omap_app. simpl.
  intros H. apply app_eq_nil in H as [_ H]. discriminate H.
Qed.

(** C1 (as amended). The server replies with an ACK exactly when the
    payload is an object with the keys resolution, fps, cameras and
    timestamp whose cameras compare equal to the sequence [0, 1] and
    whose resolution is a two-element list; and whenever the camera set
    of a payload differs from the expected set, nothing is sent and
    validation does not succeed. *)
Theorem ack_iff_accepted_shape (p : json) :
  (acks (respond p) <> [] <-> accepted_shape p)
  /\ (camera_set_matches p = false ->
      acks (respond p) = [] /\ (validate_payload p).2 <> Some true).
Proof.
  split; [split|].
  - apply respond_ack_inv.
  - intros H. destruct (respond_accepted p H) as (ts & _ & ->).
    simpl. discriminate.
  - intros Hset.
    assert (Hno : acks (respond p) = []).
    { destruct (acks (respond p)) eqn:E; [reflexivity|].
      assert (Hne : acks (respond p) <> []) by (rewrite E; discriminate).
      apply respond_ack_inv, accepted_shape_camera_set in Hne. congruence. }
    split; [exact Hno|].
    intros Hv. apply validate_true_ack in Hv. contradiction.
Qed.

Lemma ack_iff_accepted_shape_witness :
  acks (respond (config [JInt 0; JInt 2])) = []
  /\ (validate_payload (config [JInt 0; JInt 2])).2 <> Some true.
Proof.
  exact (proj2 (ack_iff_accepted_shape (config [JInt 0; JInt 2])) eq_refl).
Defined.

(** C1, counterexample. A CaptureConfig whose cameras are listed as
    [1, 0] carries exactly the expected set of identifiers and a
    two-element resolution, and is not acknowledged. *)
Lemma same_set_not_accepted :
  capture_config (config [JInt 1; JInt 0]) = true
  /\ camera_set_matches (config [JInt 1; JInt 0]) = true
  /\ two_element_resolution (config [JInt 1; JInt 0]) = true
  /\ acks (respond (config [JInt 1; JInt 0])) = []
  /\ (validate_payload (config [JInt 1; JInt 0])).2 = Some false.
Proof. repeat split. Qed.

Lemma recv_whole (n : Z) (c : bytes) (rest : socket) :
  c <> [] -> Z.of_nat (length c) <= n -> recv n (c :: rest) = (c, rest).
Proof.
  intros Hc Hn. destruct c as [|b c]; [contradiction|].
  cbn [recv].
  assert (Hpos : 0 < n) by (cbn [length] in Hn; lia).
  destruct (Z.leb_spec n 0); [lia|].
  destruct (Z.leb_spec (Z.of_nat (length (b :: c))) n); [reflexivity|lia].
Qed.

Lemma recv_split (p a : bytes) (s : socket) :
  p <> [] ->
  recv (Z.of_nat (length p)) ((p ++ a)%list :: s)
  = (p, match a with [] => s | _ :: _ => a :: s end).
Proof.
  intros Hp. destruct p as [|b p]; [contradiction|].
  cbn [recv app].
  destruct (Z.leb_spec (Z.of_nat (length (b :: p))) 0) as [H|_];
    [simpl length in H; lia|].
  destruct (Z.leb_spec (Z.of_nat (length (b :: (p ++ a)%list%list)))
                       (Z.of_nat (length (b :: p)))) as [Hle|Hgt].
  - simpl length in Hle. rewrite length_app in Hle.
    assert (Ha : length a = 0%nat) by lia.
    apply length_zero_iff_nil in Ha. subst a.
    rewrite app_nil_r. reflexivity.
  - rewrite Nat2Z.id.
    change (b :: (p ++ a)%list%list) with (((b :: p) ++ a)%list).
    rewrite take_app_length, drop_app_length.
    destruct a as [|x a]; [|reflexivity].
    simpl length in Hgt. rewrite length_app in Hgt. simpl in Hgt. lia.
Qed.

(** C4 (as amended). When the length prefix and the body each arrive
    unsplit, in a segment each or both in the same segment, and the
    body parses to an object with the four keys, cameras equal to the
    sequence [0, 1] and a two-element resolution, the server sends one
    ACK whose timestamp is the value received under the key timestamp,
    unchanged; [handle_handshake] itself returns no value. *)
Theorem ack_echoes_timestamp (json_loads : bytes -> option json)
        (prefix body : bytes) (client : socket) (p : json) :
  prefix <> [] -> (length prefix <= 4)%nat -> body <> [] ->
  int_from_bytes prefix = Z.of_nat (length body) ->
  json_loads body = Some p ->
  accepted_shape p ->
  arrives_whole prefix body client ->
  exists ts,
    subscript p "timestamp" = Some ts
    /\ handle_handshake json_loads client
       = (None, [Json_loads body; Log_received p; Sendall (ack ts); Log_sent_ack]).
Proof.
  intros Hp Hlen Hb Hint Hloads Hshape Harrives.
  destruct (respond_accepted p Hshape) as (ts & Hts & Hresp).
  exists ts. split; [exact Hts|].
  assert (Hreads :
            exists c1 c2,
              recv 4 client = (prefix, c1)
              /\ recv (Z.of_nat (length body)) c1 = (body, c2)).
  { destruct Harrives as [extra rest|extra rest H4].
    - eexists _, _. split.
      + apply recv_whole; [exact Hp | lia].
      + apply recv_split. exact Hb.
    - eexists _, _. split.
      + replace 4 with (Z.of_nat (length prefix)) by lia.
        apply recv_split. exact Hp.
      + destruct body as [|b0 body]; [contradiction|].
        cbn [app]. apply (recv_split (b0 :: body) extra rest). discriminate. }
  destruct Hreads as (c1 & c2 & R1 & R2).
  unfold handle_handshake. rewrite R1.
  destruct prefix as [|b0 prefix']; [contradiction|].
  rewrite Hint, R2, Hloads, Hresp. reflexivity.
Qed.

Lemma ack_echoes_timestamp_witness :
  exists ts,
    subscript (config [JInt 0; JInt 1]) "timestamp" = Some ts
    /\ handle_handshake loads_config [(to_bytes4 84 ++ config_bytes ++ [])%list]
       = (None, [Json_loads config_bytes;
                 Log_received (config [JInt 0; JInt 1]);
                 Sendall (ack ts); Log_sent_ack]).
Proof.
  apply (ack_echoes_timestamp loads_config (to_bytes4 84) config_bytes
           [(to_bytes4 84 ++ config_bytes ++ [])%list]
           (config [JInt 0; JInt 1])).
  - discriminate.
  - simpl. lia.
  - discriminate.
  - reflexivity.
  - reflexivity.
  - do 7 eexists. repeat split; reflexivity.
  - apply (in_one_segment (to_bytes4 84) config_bytes [] []). reflexivity.
Defined.

(** C4, counterexample. For the scenario payload the ACK is sent but the
    function returns nothing, not the config; and a CaptureConfig that
    lists the expected camera set as [1, 0] gets no ACK at all. *)
Lemma ack_without_config :
  (handle_handshake loads_config [to_bytes4 84; config_bytes]).1 = None
  /\ acks (handle_handshake loads_config [to_bytes4 84; config_bytes]).2
     = [ack (JFloat (S754_finite false 6800000001 (-2)))]
  /\ capture_config (config [JInt 1; JInt 0]) = true
  /\ camera_set_matches (config [JInt 1; JInt 0]) = true
  /\ two_element_resolution (config [JInt 1; JInt 0]) = true
  /\ acks (respond (config [JInt 1; JInt 0])) = [].
Proof. repeat split. Qed.

(** C9. The body is read with a single [recv(length)].  When the 84-byte
    message of the scenario arrives with its body cut into two segments
    after 40 bytes, the bytes handed to the JSON parser are the first 40
    only, whatever the parser does with them. *)
Theorem truncated_body_is_parsed (json_loads : bytes -> option json) :
  int_from_bytes (to_bytes4 84) = Z.of_nat (length config_bytes)
  /\ take 40 config_bytes <> config_bytes
  /\ exists tr,
       (handle_handshake json_loads
          [to_bytes4 84; take 40 config_bytes; drop 40 config_bytes]).2
       = Json_loads (take 40 config_bytes) :: tr.
Proof.
  split; [reflexivity|]. split; [discriminate|].
  unfold handle_handshake.
  rewrite (recv_whole 4) by (try discriminate; simpl; lia).
  change (int_from_bytes (to_bytes4 84)) with 84.
  rewrite (recv_whole 84 (take 40 config_bytes))
    by (try discriminate; simpl; lia).
  destruct (json_loads (take 40 config_bytes)); eexists; reflexivity.
Qed.

End handshake_properties.

(** ** Properties of the frame ingestion loop *)

Section ingestion_properties.

Import xeon_stream.

Variable image : Type.
Variable imdecode : bytes -> option image.
Variable cvtColor_BGR2GRAY : image -> image.
Variable Canny : image -> Z -> Z -> image.
Variable waitKey : nat -> Z.

Abbreviation receive_frame := (receive_frame image imdecode).
Abbreviation main :=
  (main image imdecode cvtColor_BGR2GRAY Canny waitKey).
Abbreviation apply_edge_detection :=
  (apply_edge_detection image cvtColor_BGR2GRAY Canny).

Lemma struct_unpack_II_length (h : bytes) (r : Z * Z) :
  struct_unpack_II h = Some r -> length h = 8%nat.
Proof.
  unfold struct_unpack_II.
  do 9 (destruct h as [|? h]; try discriminate). reflexivity.
Qed.

Lemma pending_app (s1 s2 : socket) :
  pending (s1 ++ s2) = (length (concat s1) + pending s2)%nat.
Proof. unfold pending. rewrite concat_app, length_app. reflexivity. Qed.

Lemma concat_nil_nonempty (cs : list bytes) :
  Forall (fun c => c <> []) cs -> concat cs = [] -> cs = [].
Proof.
  intros Hne Hc. destruct cs as [|c cs]; [reflexivity|].
  inversion Hne; subst. simpl in Hc.
  apply app_eq_nil in Hc as [-> _]. contradiction.
Qed.

(** The payload loop returns exactly the [frame_size] bytes that the
    segments at the head of the socket add up to, however they are
    cut, and leaves the socket at the byte after them. *)
Lemma recv_frame_data_complete (fuel : nat) :
  forall (cs : list bytes) (tail : socket) (frame_size bytes_received : Z)
         (frame_data : bytes),
    Forall (fun c => c <> []) cs ->
    frame_size - bytes_received = Z.of_nat (length (concat cs)) ->
    (length (concat cs) < fuel)%nat ->
    recv_frame_data fuel frame_size bytes_received frame_data (cs ++ tail)
    = Complete (frame_data ++ concat cs) tail.
Proof.
  induction fuel as [|fuel IH]; intros cs tail size got acc Hne Hsz Hfuel;
    [lia|].
  cbn [recv_frame_data].
  destruct (Z.ltb_spec got size) as [Hlt|Hge].
  - destruct cs as [|c cs]; [simpl in Hsz; lia|].
    inversion Hne as [|? ? Hc Hcs]; subst.
    destruct c as [|b c]; [contradiction|].
    set (n := Z.min BUFFER_SIZE (size - got)).
    assert (Hn : 0 < n) by (unfold n, BUFFER_SIZE; lia).
    cbn [app recv].
    destruct (Z.leb_spec n 0); [lia|].
    simpl in Hsz, Hfuel. rewrite length_app in Hsz, Hfuel.
    destruct (Z.leb_spec (Z.of_nat (length (b :: c))) n) as [Hle|Hgt].
    + rewrite IH; [| assumption | simpl length; lia | lia ].
      simpl. rewrite <- app_assoc. reflexivity.
    + destruct (Z.to_nat n) as [|k] eqn:Ek; [lia|].
      cbn [take drop].
      change (drop k c :: cs ++ tail) with ((drop k c :: cs) ++ tail).
      rewrite IH.
      * simpl concat. rewrite <- app_assoc. simpl.
        rewrite (app_assoc (take k c)), take_drop. reflexivity.
      * constructor; [|assumption].
        intros E. apply (f_equal length) in E.
        rewrite length_drop in E. simpl in E, Hgt. lia.
      * simpl concat. rewrite length_app, length_drop.
        simpl length in *. rewrite length_take. lia.
      * simpl concat. rewrite length_app, length_drop.
        simpl length in *. lia.
  - assert (Hz : length (concat cs) = 0%nat) by lia.
    apply length_zero_iff_nil in Hz.
    rewrite (concat_nil_nonempty cs Hne Hz). simpl.
    rewrite app_nil_r. reflexivity.
Qed.

Lemma recv_pending (n : Z) (s : socket) :
  pending s = (length (recv n s).1 + pending (recv n s).2)%nat.
Proof.
  induction s as [|c s IH]; [reflexivity|].
  cbn [recv]. destruct (n <=? 0); [reflexivity|].
  destruct c as [|b c]; [exact IH|].
  destruct (Z.of_nat (length (b :: c)) <=? n).
  - unfold pending. cbn [fst snd concat]. rewrite length_app. reflexivity.
  - unfold pending. cbn [fst snd concat].
    rewrite <- (take_drop (Z.to_nat n) (b :: c)) at 1.
    rewrite !length_app. lia.
Qed.

(** The fuel [receive_frame] gives the payload loop always suffices. *)
Lemma recv_frame_data_total (fuel : nat) :
  forall (frame_size bytes_received : Z) (frame_data : bytes)
         (client : socket),
    (pending client < fuel)%nat ->
    recv_frame_data fuel frame_size bytes_received frame_data client
    <> Out_of_fuel.
Proof.
  induction fuel as [|fuel IH]; intros size got acc client Hfuel; [lia|].
  cbn [recv_frame_data].
  destruct (got <? size); [|discriminate].
  pose proof (recv_pending (Z.min BUFFER_SIZE (size - got)) client) as Hp.
  destruct (recv (Z.min BUFFER_SIZE (size - got)) client) as [chunk client'].
  cbn [fst snd] in Hp.
  destruct chunk as [|b chunk]; [discriminate|].
  apply IH. simpl length in Hp. lia.
Qed.

Lemma recv_header (h a : bytes) (s : socket) :
  length h = 8%nat ->
  recv 8 ((h ++ a) :: s)
  = (h, match a with [] => s | _ :: _ => a :: s end).
Proof.
  intros Hh.
  do 9 (destruct h as [|? h]; try discriminate Hh).
  destruct a as [|x a]; [reflexivity|].
  cbn [recv app]. change (8 <=? 0) with false. cbv iota.
  match goal with
  | |- context [?n <=? 8] => destruct (Z.leb_spec n 8) as [Hle|_]
  end.
  - simpl length in Hle. lia.
  - reflexivity.
Qed.

(** One call of [receive_frame] on a whole frame: an 8-byte header that
    arrives in one segment (alone or followed by the first payload
    bytes [a]) and a payload cut into segments in any way. *)
Lemma receive_frame_whole (h a : bytes) (cs : list bytes) (tail : socket)
      (cam_id : Z) :
  struct_unpack_II h = Some (cam_id, Z.of_nat (length (a ++ concat cs))) ->
  Forall (fun c => c <> []) cs ->
  receive_frame ((h ++ a) :: cs ++ tail)
  = match imdecode (a ++ concat cs) with
    | None => (None, [Err_decode cam_id], tail)
    | Some frame => (Some (cam_id, frame), [], tail)
    end.
Proof.
  intros Hh Hcs. unfold xeon_stream.receive_frame.
  rewrite (recv_header h a) by (eapply struct_unpack_II_length; eauto).
  rewrite Hh.
  destruct a as [|x a].
  - rewrite recv_frame_data_complete;
      [reflexivity | assumption | simpl in *; lia | rewrite pending_app; lia].
  - change ((x :: a) :: cs ++ tail) with (((x :: a) :: cs) ++ tail).
    rewrite recv_frame_data_complete;
      [ reflexivity
      | constructor; [discriminate | assumption]
      | simpl in *; lia
      | rewrite pending_app; lia ].
Qed.





Lemma main_loop_closed (fuel calls : nat) :
  main fuel calls []
  = (concat (replicate fuel
       [Log image Warn_incomplete_header; Warn_skipping image]),
     Running []).
Proof.
  induction fuel as [|fuel IH]; [reflexivity|].
  cbn [xeon_stream.main]. unfold xeon_stream.receive_frame. cbn [recv].
  cbn [struct_unpack_II]. rewrite IH. reflexivity.
Qed.

(** C3. Once the peer has disconnected the loop does not end: a header
    cut short after three bytes, or a payload cut short after two of
    five bytes, is logged and skipped, and every later iteration reads
    the closed socket again, logs and skips again.  After any number of
    iterations the loop is still running. *)
Theorem loop_spins_after_disconnect (fuel calls : nat) :
  main (S fuel) calls [[Byte.x00; Byte.x00; Byte.x00]]
  = (Log image Warn_incomplete_header :: Warn_skipping image
       :: concat (replicate fuel
            [Log image Warn_incomplete_header; Warn_skipping image]),
     Running [])
  /\ main (S fuel) calls [[Byte.x00; Byte.x00; Byte.x00; Byte.x00; Byte.x00; Byte.x00; Byte.x00; Byte.x05]; [Byte.xff; Byte.xd8]]
     = (Log image Warn_closed_during_frame :: Warn_skipping image
          :: concat (replicate fuel
               [Log image Warn_incomplete_header; Warn_skipping image]),
        Running []).
Proof.
  assert (R1 : receive_frame [[Byte.x00; Byte.x00; Byte.x00]]
               = (None, [Warn_incomplete_header], [])) by reflexivity.
  assert (R2 : receive_frame [[Byte.x00; Byte.x00; Byte.x00; Byte.x00; Byte.x00; Byte.x00; Byte.x00; Byte.x05]; [Byte.xff; Byte.xd8]]
               = (None, [Warn_closed_during_frame], [])) by reflexivity.
  split; cbn [xeon_stream.main].
  - rewrite R1, main_loop_closed. reflexivity.
  - rewrite R2, main_loop_closed. reflexivity.
Qed.

End ingestion_properties.



(** ** Properties of the fiducial distance estimator *)

Section detector_properties.

Import server_stream_cal_1.

Variable image : Type.
Variable contour : Type.
Variable float : Type.
Variable fmul : float -> float -> float.
Variable fgt : float -> float -> bool.
Variable float_of_int : Z -> float.
Variable f0 f0_1 f0_04 : float.
Variable SQUARE_DIMS : float * float.
Variable blue_mask : image -> image.
Variable findContours : image -> list contour.
Variable shape : image -> Z * Z.
Variable contourArea : contour -> float.
Variable arcLength : contour -> bool -> float.
Variable approxPolyDP : contour -> float -> bool -> list point.
Variable boundingRect : list point -> Z * Z * Z * Z.
Variable solvePnP :
  list (float * float * float) -> list point -> bool * (float * float * float).
Variable draw_detection : image -> list point -> Z * Z -> float -> image.
Variable Canny : image -> Z -> Z -> image.
Variable cvtColor_BGR2GRAY : image -> image.

Abbreviation scan :=
  (scan image contour float fmul fgt f0 f0_04 SQUARE_DIMS contourArea
     arcLength approxPolyDP boundingRect solvePnP draw_detection).
Abbreviation detect_framing_square :=
  (detect_framing_square image contour float fmul fgt float_of_int f0 f0_1
     f0_04 SQUARE_DIMS blue_mask findContours shape contourArea arcLength
     approxPolyDP boundingRect solvePnP draw_detection Canny
     cvtColor_BGR2GRAY).

Abbreviation polygon := (polygon contour float fmul f0_04 arcLength approxPolyDP).
Abbreviation target :=
  (target contour float fmul fgt f0_04 contourArea arcLength approxPolyDP).
Abbreviation pose_distance :=
  (pose_distance contour float fmul f0 f0_04 SQUARE_DIMS arcLength
     approxPolyDP solvePnP).

Lemma scan_distance (min_area : float) (contours : list contour)
      (output_frame : image) :
  (scan min_area contours output_frame None).2
  = match find (target min_area) contours with
    | Some c => pose_distance c
    | None => None
    end.
Proof.
  induction contours as [|c contours IH]; [reflexivity|].
  cbn [server_stream_cal_1.scan find]. unfold target at 1.
  destruct (fgt (contourArea c) min_area); cbn [andb]; [|exact IH].
  fold (polygon c).
  destruct (length (polygon c) =? 4)%nat; [|exact IH].
  unfold pose_distance.
  destruct (boundingRect (polygon c)) as [[[x y] w] h].
  destruct (solvePnP _ (polygon c)) as [ret [[tx ty] tz]].
  destruct ret; reflexivity.
Qed.

(** C6 (as amended). For every frame the estimator solves at most one
    pose: that of the first contour that both exceeds 10% of the frame
    area and is approximated by exactly four vertices, large contours
    with another number of vertices before it being passed over.  The
    reported distance is the Z component of that pose's translation
    when the solver succeeds; without such a contour there is no
    detection. *)
Theorem distance_of_first_large_quadrilateral (frame : image) :
  exists output_frame edges,
    detect_framing_square (Some frame)
    = Some (output_frame, edges,
            match find (target (fmul (fmul f0_1 (float_of_int (shape frame).1))
                                     (float_of_int (shape frame).2)))
                       (findContours (blue_mask frame)) with
            | Some c => pose_distance c
            | None => None
            end).
Proof.
  unfold server_stream_cal_1.detect_framing_square.
  rewrite <- scan_distance with (output_frame := frame).
  destruct (scan _ _ frame None) as [out d].
  eexists _, _. reflexivity.
Qed.

End detector_properties.

(** C6, counterexample. In a frame whose first large contour is a
    pentagon and whose second large contour is a quadrilateral, the first
    contour above the area threshold does not have four vertices, and a
    distance is reported all the same: that of the second contour. *)
Lemma distance_from_second_contour :
  find (fun c => Toy.fgt c.1 Toy.min_area) [Toy.pentagon; Toy.quadrilateral]
  = Some Toy.pentagon
  /\ length (Toy.pentagon).2 = 5%nat
  /\ option_map snd (Toy.detect_framing_square
                       (Some [Toy.pentagon; Toy.quadrilateral]))
     = Some (Some 2%Q).
Proof. repeat split. Qed.

(** ** Properties of the latest-frame cache *)

Section depth_cache_properties.

Import xeon_stream_depth.

Variable cv : Cv.

Abbreviation store := (store cv).
Abbreviation refresh := (refresh cv).
Abbreviation pass := (pass cv).
Abbreviation main := (main cv).
Abbreviation generate_mjpeg_stream := (generate_mjpeg_stream cv).

Lemma refresh_latest_depth (g g' : globals cv) (l l' : locals cv) :
  refresh g l = Some (g', l') -> latest_depth cv g' = latest_depth cv g.
Proof.
  unfold xeon_stream_depth.refresh.
  destruct (latest_frames cv g !! 0) as [f0|]; [|discriminate].
  cbn [mbind option_bind].
  destruct f0 as [f0|]; [|intros [= <- _]; reflexivity].
  destruct (latest_frames cv g !! 1) as [f1|]; [|discriminate].
  cbn [mbind option_bind].
  destruct f1 as [f1|]; [|intros [= <- _]; reflexivity].
  destruct (compute_depth_map cv (Some f0) (Some f1)) as [depth|];
    [|discriminate].
  cbn [mbind option_bind].
  destruct (_ !! 1); cbn [mbind option_bind]; [|discriminate].
  intros [= <- _]. reflexivity.
Qed.

Lemma pass_latest_depth (cam_id : Z) (frame : image cv) (g : globals cv)
      (l : locals cv) :
  latest_depth cv (pass cam_id frame g l).1.1 = latest_depth cv g.
Proof.
  unfold xeon_stream_depth.pass.
  destruct (refresh (store cam_id frame g) l) as [[g' l']|] eqn:E.
  - apply refresh_latest_depth in E. exact E.
  - reflexivity.
Qed.

Lemma main_loop_latest_depth (fuel : nat) :
  forall (client : socket) (g : globals cv) (l : locals cv),
    latest_depth cv (main fuel client g l).1.1.2 = latest_depth cv g.
Proof.
  induction fuel as [|fuel IH]; intros client g l; [reflexivity|].
  cbn [xeon_stream_depth.main].
  destruct (xeon_stream.receive_frame (image cv) (imdecode cv) client)
    as [[[[cam_id frame]|] logs] client']; [|apply IH].
  pose proof (pass_latest_depth cam_id frame g l) as Hp.
  destruct (pass cam_id frame g l) as [[g' l'] [|]]; cbn [fst snd] in *.
  - rewrite IH. exact Hp.
  - exact Hp.
Qed.

(** C10. Whatever arrives on the stream and however long the loop runs,
    the module-level [latest_depth] is still [None] and a read of the
    depth channel yields nothing: the depth map computed in [main] is
    bound to a name local to [main]. *)
Theorem depth_slot_never_updated (fuel : nat) (client : socket) :
  latest_depth cv
    (main fuel client (module_init cv) (main_init cv)).1.1.2 = None
  /\ generate_mjpeg_stream depth
       (main fuel client (module_init cv) (main_init cv)).1.1.2
     = None.
Proof.
  split; [|cbn [xeon_stream_depth.generate_mjpeg_stream]];
    rewrite main_loop_latest_depth; reflexivity.
Qed.

Lemma depth_published_locally (f0 f1 : image cv) :
  exists g1 l1,
    refresh (store 0 f0 (module_init cv)) (main_init cv) = Some (g1, l1)
    /\ match StereoBM_compute cv (cvtColor_BGR2GRAY cv f0)
                              (cvtColor_BGR2GRAY cv f1) with
       | Some disparity =>
           exists g2 l2,
             refresh (store 1 f1 g1) l1 = Some (g2, l2)
             /\ main_latest_depth cv l2 = Some (Some (normalize cv disparity))
             /\ generate_mjpeg_stream depth g2 = None
       | None =>
           refresh (store 1 f1 g1) l1 = None
           /\ generate_mjpeg_stream depth (store 1 f1 g1) = None
       end.
Proof.
  eexists _, _. split; [reflexivity|].
  destruct (StereoBM_compute cv (cvtColor_BGR2GRAY cv f0)
                             (cvtColor_BGR2GRAY cv f1)) as [disparity|] eqn:E.
  - assert (R : refresh (store 1 f1 (store 0 f0 (module_init cv)))
                  (main_init cv)
                = Some ({| latest_frames :=
                             <[1 := Some (annotate cv f1 (normalize cv disparity)).1]>
                               (<[0 := Some (annotate cv f0 (normalize cv disparity)).1]>
                                  (latest_frames cv
                                     (store 1 f1 (store 0 f0 (module_init cv)))));
                           latest_depth := None |},
                        {| main_latest_depth :=
                             Some (Some (normalize cv disparity)) |})).
    { unfold xeon_stream_depth.refresh, xeon_stream_depth.store,
        xeon_stream_depth.module_init. cbn [latest_frames latest_depth].
      change ((<[1:=Some f1]> (<[0:=Some f0]> (<[0:=None]> (<[1:=None]> ∅)))
                : gmap Z (option (image cv))) !! 0) with (Some (Some f0)).
      change ((<[1:=Some f1]> (<[0:=Some f0]> (<[0:=None]> (<[1:=None]> ∅)))
                : gmap Z (option (image cv))) !! 1) with (Some (Some f1)).
      cbn [mbind option_bind compute_depth_map]. rewrite E.
      cbn [mbind option_bind].
      rewrite lookup_insert_ne by discriminate.
      change ((<[1:=Some f1]> (<[0:=Some f0]> (<[0:=None]> (<[1:=None]> ∅)))
                : gmap Z (option (image cv))) !! 1) with (Some (Some f1)).
      reflexivity. }
    eexists _, _. split; [exact R|]. split; reflexivity.
  - split; [|reflexivity].
    unfold xeon_stream_depth.refresh, xeon_stream_depth.store,
      xeon_stream_depth.module_init. cbn [latest_frames latest_depth].
    change ((<[1:=Some f1]> (<[0:=Some f0]> (<[0:=None]> (<[1:=None]> ∅)))
              : gmap Z (option (image cv))) !! 0) with (Some (Some f0)).
    change ((<[1:=Some f1]> (<[0:=Some f0]> (<[0:=None]> (<[1:=None]> ∅)))
              : gmap Z (option (image cv))) !! 1) with (Some (Some f1)).
    cbn [mbind option_bind compute_depth_map]. rewrite E. reflexivity.
Qed.

End depth_cache_properties.

Section cal_cache_properties.

Import server_stream_cal_1.
Local Open Scope string_scope.

Variable image : Type.
Variable contour : Type.
Variable float : Type.
Variable fmul : float -> float -> float.
Variable fgt : float -> float -> bool.
Variable float_of_int : Z -> float.
Variable f0 f0_1 f0_04 : float.
Variable SQUARE_DIMS : float * float.
Variable blue_mask : image -> image.
Variable findContours : image -> list contour.
Variable shape : image -> Z * Z.
Variable contourArea : contour -> float.
Variable arcLength : contour -> bool -> float.
Variable approxPolyDP : contour -> float -> bool -> list point.
Variable boundingRect : list point -> Z * Z * Z * Z.
Variable solvePnP :
  list (float * float * float) -> list point -> bool * (float * float * float).
Variable draw_detection : image -> list point -> Z * Z -> float -> image.
Variable Canny : image -> Z -> Z -> image.
Variable cvtColor_BGR2GRAY : image -> image.

Abbreviation detect_framing_square :=
  (detect_framing_square image contour float fmul fgt float_of_int f0 f0_1
     f0_04 SQUARE_DIMS blue_mask findContours shape contourArea arcLength
     approxPolyDP boundingRect solvePnP draw_detection Canny
     cvtColor_BGR2GRAY).
Abbreviation update :=
  (update image contour float fmul fgt float_of_int f0 f0_1
     f0_04 SQUARE_DIMS blue_mask findContours shape contourArea arcLength
     approxPolyDP boundingRect solvePnP draw_detection Canny
     cvtColor_BGR2GRAY).

(** In the single-camera server a frame of the expected camera is
    processed and bound to [main]'s own [latest_frame] and
    [latest_edges]; the module-level names the web thread reads are
    left as they were. *)
Lemma frame_published_locally (frame : image) (g : globals image)
      (l : locals image) :
  exists output_frame edges distance,
    detect_framing_square (Some frame) = Some (output_frame, edges, distance)
    /\ update 0 frame g l
       = Some (g, {| main_latest_frame := Some output_frame;
                     main_latest_edges := Some edges |}).
Proof.
  unfold server_stream_cal_1.update.
  change (negb (0 =? EXPECTED_CAMERA)%Z) with false. cbv iota.
  unfold server_stream_cal_1.detect_framing_square.
  destruct (scan _ _ _ _ _ _ _ _ _ _ _ _ _ _ _ _ _ _) as [output_frame distance].
  eexists _, _, _. split; reflexivity.
Qed.

End cal_cache_properties.

(** C2. Two channels on which a published image is not what a read
    returns.  In the stereo server, once a frame of each camera has been
    processed the depth map has been computed and assigned, and a read of
    the depth channel still yields nothing (nor does it when the block
    matcher raises instead).  In the single-camera server,
    after a frame has been processed and assigned the reads of the frame
    and edges channels still yield nothing. *)
Theorem published_image_not_read :
  (forall (cv : xeon_stream_depth.Cv) (f0 f1 : xeon_stream_depth.image cv),
      exists g1 l1,
        xeon_stream_depth.refresh cv
          (xeon_stream_depth.store cv 0 f0 (xeon_stream_depth.module_init cv))
          (xeon_stream_depth.main_init cv) = Some (g1, l1)
        /\ match xeon_stream_depth.StereoBM_compute cv
                   (xeon_stream_depth.cvtColor_BGR2GRAY cv f0)
                   (xeon_stream_depth.cvtColor_BGR2GRAY cv f1) with
           | Some disparity =>
               exists g2 l2,
                 xeon_stream_depth.refresh cv
                   (xeon_stream_depth.store cv 1 f1 g1) l1 = Some (g2, l2)
                 /\ xeon_stream_depth.main_latest_depth cv l2
                    = Some (Some (xeon_stream_depth.normalize cv disparity))
                 /\ xeon_stream_depth.generate_mjpeg_stream cv
                      xeon_stream_depth.depth g2 = None
           | None =>
               xeon_stream_depth.refresh cv
                 (xeon_stream_depth.store cv 1 f1 g1) l1 = None
               /\ xeon_stream_depth.generate_mjpeg_stream cv
                    xeon_stream_depth.depth
                    (xeon_stream_depth.store cv 1 f1 g1) = None
           end)
  /\ (forall (image contour float : Type)
             (fmul : float -> float -> float) (fgt : float -> float -> bool)
             (float_of_int : Z -> float) (f0 f0_1 f0_04 : float)
             (SQUARE_DIMS : float * float) (blue_mask : image -> image)
             (findContours : image -> list contour) (shape : image -> Z * Z)
             (contourArea : contour -> float) (arcLength : contour -> bool -> float)
             (approxPolyDP : contour -> float -> bool -> list server_stream_cal_1.point)
             (boundingRect : list server_stream_cal_1.point -> Z * Z * Z * Z)
             (solvePnP : list (float * float * float)
                         -> list server_stream_cal_1.point
                         -> bool * (float * float * float))
             (draw_detection : image -> list server_stream_cal_1.point
                               -> Z * Z -> float -> image)
             (Canny : image -> Z -> Z -> image)
             (cvtColor_BGR2GRAY : image -> image) (frame : image),
        exists output_frame edges distance l,
          server_stream_cal_1.detect_framing_square
            image contour float fmul fgt float_of_int f0 f0_1 f0_04 SQUARE_DIMS
            blue_mask findContours shape contourArea arcLength approxPolyDP
            boundingRect solvePnP draw_detection Canny cvtColor_BGR2GRAY
            (Some frame)
          = Some (output_frame, edges, distance)
          /\ server_stream_cal_1.update
               image contour float fmul fgt float_of_int f0 f0_1 f0_04 SQUARE_DIMS
               blue_mask findContours shape contourArea arcLength approxPolyDP
               boundingRect solvePnP draw_detection Canny cvtColor_BGR2GRAY
               0 frame
               (server_stream_cal_1.module_init image)
               (server_stream_cal_1.main_init image)
             = Some (server_stream_cal_1.module_init image, l)
          /\ server_stream_cal_1.main_latest_frame image l = Some output_frame
          /\ server_stream_cal_1.main_latest_edges image l = Some edges
          /\ server_stream_cal_1.generate_mjpeg_stream image "frame"
               (server_stream_cal_1.module_init image) = None
          /\ server_stream_cal_1.generate_mjpeg_stream image "edges"
               (server_stream_cal_1.module_init image) = None).
Proof.
  split.
  - intros cv f0 f1. exact (depth_published_locally cv f0 f1).
  - intros image contour float fmul fgt float_of_int f0 f0_1 f0_04 SQUARE_DIMS
      blue_mask findContours shape contourArea arcLength approxPolyDP
      boundingRect solvePnP draw_detection Canny cvtColor_BGR2GRAY frame.
    destruct (frame_published_locally image contour float fmul fgt
                float_of_int f0 f0_1 f0_04 SQUARE_DIMS blue_mask findContours
                shape contourArea arcLength approxPolyDP boundingRect solvePnP
                draw_detection Canny cvtColor_BGR2GRAY frame
                (server_stream_cal_1.module_init image)
                (server_stream_cal_1.main_init image))
      as (output_frame & edges & distance & Hd & Hu).
    exists output_frame, edges, distance. eexists.
    split; [exact Hd|]. split; [exact Hu|]. repeat split.
Qed.

(** ** Properties of the stereo depth estimate *)


(** ** Further properties of the frame receiver *)

Section receiver_properties.

Import xeon_stream.

Variable image : Type.
Variable imdecode : bytes -> option image.
Variable cvtColor_BGR2GRAY : image -> image.
Variable Canny : image -> Z -> Z -> image.
Variable waitKey : nat -> Z.

Abbreviation receive_frame := (receive_frame image imdecode).
Abbreviation main :=
  (main image imdecode cvtColor_BGR2GRAY Canny waitKey).
Abbreviation apply_edge_detection :=
  (apply_edge_detection image cvtColor_BGR2GRAY Canny).
Abbreviation frame_events :=
  (frame_events image imdecode cvtColor_BGR2GRAY Canny).

Lemma byte_to_Z_range (b : byte) : 0 <= byte_to_Z b < 256.
Proof.
  unfold byte_to_Z. pose proof (Byte.to_N_bounded b) as H. lia.
Qed.

Lemma int_from_bytes_snoc (bs : bytes) (b : byte) :
  int_from_bytes (bs ++ [b]) = int_from_bytes bs * 256 + byte_to_Z b.
Proof. unfold int_from_bytes. rewrite fold_left_app. reflexivity. Qed.

Lemma int_from_bytes_range (bs : bytes) :
  0 <= int_from_bytes bs < 256 ^ Z.of_nat (length bs).
Proof.
  induction bs as [|b bs IH] using rev_ind; [change (0 <= 0 < 1); lia|].
  rewrite int_from_bytes_snoc, length_app, Nat2Z.inj_add.
  cbn [length]. rewrite Z.pow_add_r by lia.
  pose proof (byte_to_Z_range b). change (256 ^ Z.of_nat 1) with 256. nia.
Qed.

(** X1. Whatever eight bytes arrive as a header, the camera identifier
    and the frame size read from them are unsigned 32-bit values. *)
Theorem header_fields_unsigned_32 (header : bytes) (cam_id frame_size : Z) :
  struct_unpack_II header = Some (cam_id, frame_size) ->
  0 <= cam_id < 4294967296 /\ 0 <= frame_size < 4294967296.
Proof.
  unfold struct_unpack_II.
  do 9 (destruct header as [|? header]; try discriminate).
  intros [= <- <-].
  split; match goal with
         | |- _ <= int_from_bytes ?l < _ =>
             pose proof (int_from_bytes_range l) as H; simpl length in H
         end; change (256 ^ Z.of_nat 4) with 4294967296 in H; exact H.
Qed.

Lemma header_fields_unsigned_32_witness :
  0 <= 4294967295 < 4294967296 /\ 0 <= 258 < 4294967296.
Proof.
  apply (header_fields_unsigned_32
           [Byte.xff; Byte.xff; Byte.xff; Byte.xff;
            Byte.x00; Byte.x00; Byte.x01; Byte.x02]).
  reflexivity.
Defined.

Lemma recv_concat (n : Z) (s : socket) :
  concat s = (recv n s).1 ++ concat (recv n s).2.
Proof.
  induction s as [|c s IH]; [reflexivity|].
  cbn [recv]. destruct (n <=? 0); [reflexivity|].
  destruct c as [|b c]; [exact IH|].
  destruct (Z.of_nat (length (b :: c)) <=? n); cbn [fst snd concat].
  - reflexivity.
  - rewrite app_assoc, take_drop. reflexivity.
Qed.

Lemma recv_length (n : Z) (s : socket) :
  0 <= n -> Z.of_nat (length (recv n s).1) <= n.
Proof.
  intros Hn. induction s as [|c s IH]; [simpl; lia|].
  cbn [recv]. destruct (Z.leb_spec n 0); [simpl; lia|].
  destruct c as [|b c]; [exact IH|].
  destruct (Z.leb_spec (Z.of_nat (length (b :: c))) n); cbn [fst].
  - assumption.
  - rewrite length_take. lia.
Qed.

Lemma recv_empty (n : Z) (s : socket) :
  0 < n -> (recv n s).1 = [] -> (recv n s).2 = [] /\ concat s = [].
Proof.
  intros Hn. induction s as [|c s IH]; [auto|].
  cbn [recv]. destruct (Z.leb_spec n 0); [lia|].
  destruct c as [|b c]; [exact IH|].
  destruct (Z.leb_spec (Z.of_nat (length (b :: c))) n); cbn [fst snd].
  - discriminate.
  - destruct (Z.to_nat n) eqn:E; [lia|]. discriminate.
Qed.

(** What the payload loop returns, for every segmentation of the
    stream: a completed read took exactly the missing bytes off the
    front of the stream; a closed read means the stream was shorter
    than that, and nothing is left of it. *)
Lemma recv_frame_data_spec (fuel : nat) :
  forall (frame_size bytes_received : Z) (frame_data : bytes) (client : socket),
    match recv_frame_data fuel frame_size bytes_received frame_data client with
    | Out_of_fuel => True
    | Closed client' =>
        client' = [] /\ Z.of_nat (pending client) < frame_size - bytes_received
    | Complete data client' =>
        exists more,
          data = frame_data ++ more
          /\ concat client = more ++ concat client'
          /\ (bytes_received <= frame_size ->
              Z.of_nat (length more) = frame_size - bytes_received)
    end.
Proof.
  induction fuel as [|fuel IH]; intros size got acc client; [exact I|].
  cbn [recv_frame_data].
  destruct (Z.ltb_spec got size) as [Hlt|Hge].
  - set (n := Z.min BUFFER_SIZE (size - got)).
    assert (Hn : 0 < n) by (unfold n, BUFFER_SIZE; lia).
    pose proof (recv_concat n client) as Hc.
    pose proof (recv_length n client ltac:(lia)) as Hl.
    pose proof (recv_empty n client Hn) as He.
    destruct (recv n client) as [chunk c1]. cbn [fst snd] in Hc, Hl, He.
    destruct chunk as [|b chunk].
    + destruct (He eq_refl) as [-> Hnil]. split; [reflexivity|].
      unfold pending. rewrite Hnil. simpl. lia.
    + specialize (IH size (got + Z.of_nat (length (b :: chunk)))
                     (acc ++ b :: chunk) c1).
      destruct (recv_frame_data fuel size _ _ c1) as [|c'|data c'].
      * exact I.
      * destruct IH as [-> Hp]. split; [reflexivity|].
        unfold pending in *. rewrite Hc, length_app. lia.
      * destruct IH as (more & -> & Hc1 & Hlen).
        exists ((b :: chunk) ++ more). split; [|split].
        -- rewrite <- app_assoc. reflexivity.
        -- rewrite Hc, Hc1, <- app_assoc. reflexivity.
        -- intros _. rewrite length_app, Nat2Z.inj_add, Hlen; lia.
  - exists []. split; [|split].
    + rewrite app_nil_r. reflexivity.
    + reflexivity.
    + simpl. lia.
Qed.

(** X2. Every frame [receive_frame] returns was decoded from exactly the
    bytes its header announces: the stream began with an 8-byte header
    for that camera, followed by as many payload bytes as the header
    says, and the socket is left at the byte after them.  This holds
    however the stream is cut into segments. *)
Theorem receive_frame_sound (client client' : socket) (cam_id : Z)
        (frame : image) (logs : list log) :
  receive_frame client = (Some (cam_id, frame), logs, client') ->
  exists header frame_data,
    struct_unpack_II header = Some (cam_id, Z.of_nat (length frame_data))
    /\ imdecode frame_data = Some frame
    /\ concat client = header ++ frame_data ++ concat client'.
Proof.
  unfold xeon_stream.receive_frame.
  pose proof (recv_concat 8 client) as Hc.
  destruct (recv 8 client) as [header c1]. cbn [fst snd] in Hc.
  destruct (struct_unpack_II header) as [[cam size]|] eqn:Hh; [|discriminate].
  pose proof (recv_frame_data_spec (S (pending c1)) size 0 [] c1) as Hs.
  destruct (recv_frame_data (S (pending c1)) size 0 [] c1) as [|c'|data c'];
    try discriminate.
  destruct (imdecode data) as [fr|] eqn:Hd; [|discriminate].
  intros [= -> -> _ ->].
  destruct Hs as (more & -> & Hc1 & Hlen).
  assert (Hsize : 0 <= size).
  { unfold struct_unpack_II in Hh.
    do 9 (destruct header as [|? header]; try discriminate).
    injection Hh as _ <-. apply int_from_bytes_range. }
  exists header, more. cbn [app] in *.
  rewrite Hlen by exact Hsize. rewrite Z.sub_0_r.
  repeat split; [exact Hh | exact Hd | rewrite Hc, Hc1; reflexivity].
Qed.

(** X3. When the header has arrived whole and the peer closes before
    the announced number of payload bytes has come, [receive_frame]
    reports the closed connection, returns no frame, and has taken
    everything that was left off the socket. *)
Theorem truncated_frame_is_closed (h a : bytes) (s : socket)
        (cam_id frame_size : Z) :
  struct_unpack_II h = Some (cam_id, frame_size) ->
  Z.of_nat (length a + pending s) < frame_size ->
  receive_frame ((h ++ a) :: s) = (None, [Warn_closed_during_frame], []).
Proof.
  intros Hh Hshort. unfold xeon_stream.receive_frame.
  rewrite (recv_header h a) by (eapply struct_unpack_II_length; eauto).
  rewrite Hh.
  set (c1 := match a with [] => s | _ :: _ => a :: s end).
  assert (Hp : pending c1 = (length a + pending s)%nat).
  { unfold c1. destruct a; [reflexivity|].
    unfold pending. cbn [concat]. rewrite length_app. reflexivity. }
  pose proof (recv_frame_data_spec (S (pending c1)) frame_size 0 [] c1) as Hs.
  pose proof (recv_frame_data_total (S (pending c1)) frame_size 0 [] c1
                ltac:(lia)) as Ht.
  destruct (recv_frame_data (S (pending c1)) frame_size 0 [] c1)
    as [|c'|data c'].
  - contradiction.
  - destruct Hs as [-> _]. reflexivity.
  - destruct Hs as (more & _ & Hc & Hlen).
    assert (Hm : (length more <= pending c1)%nat).
    { unfold pending. rewrite Hc, length_app. lia. }
    lia.
Qed.

(** X4. A header that reaches the server cut in two is lost: when the
    next segment holds between one and seven bytes, [receive_frame]
    takes them, reports an incomplete header and returns no frame, and
    the loop of [main] goes on reading at the byte after them. *)
Theorem split_header_is_dropped (h1 : bytes) (rest : socket) (calls : nat) :
  h1 <> [] -> (length h1 < 8)%nat ->
  receive_frame (h1 :: rest) = (None, [Warn_incomplete_header], rest)
  /\ main 1 calls (h1 :: rest)
     = ([Log image Warn_incomplete_header; Warn_skipping image], Running rest).
Proof.
  intros Hne Hlen.
  assert (R : receive_frame (h1 :: rest) = (None, [Warn_incomplete_header], rest)).
  { unfold xeon_stream.receive_frame.
    rewrite (recv_whole 8 h1) by (auto; lia).
    destruct (struct_unpack_II h1) as [r|] eqn:E; [|reflexivity].
    apply struct_unpack_II_length in E. lia. }
  split; [exact R|].
  cbn [xeon_stream.main]. rewrite R. reflexivity.
Qed.

Lemma shown_app (tr1 tr2 : list (event image)) :
  shown image (tr1 ++ tr2) = (shown image tr1 + shown image tr2)%nat.
Proof.
  unfold Shown.shown. rewrite List.filter_app, length_app. reflexivity.
Qed.

Lemma shown_logs (logs : list log) : shown image (map (Log image) logs) = 0%nat.
Proof. induction logs as [|l logs IH]; [reflexivity | exact IH]. Qed.

(** X5. Whenever the loop of [main] is left through its [break], a frame
    has just been shown and the key read right after that [imshow], the
    one [waitKey] call made per shown frame, has the low byte of [q];
    none of the keys read after the frames shown before had it. *)
Theorem main_stops_only_after_q (fuel : nat) :
  forall (calls : nat) (client : socket) (tr : list (event image)),
    main fuel calls client = (tr, Stopped) ->
    exists tr' cam_id frame,
      tr = tr' ++ [Imshow image cam_id (apply_edge_detection frame)]
      /\ Z.land (waitKey (calls + shown image tr')) 255 = 113
      /\ forall j, (calls <= j < calls + shown image tr')%nat ->
                   Z.land (waitKey j) 255 <> 113.
Proof.
  induction fuel as [|fuel IH]; intros calls client tr; [discriminate|].
  cbn [xeon_stream.main].
  destruct (receive_frame client) as [[[[cam_id frame]|] logs] client'].
  - destruct (Z.eqb_spec (Z.land (waitKey calls) 255) 113) as [Hq|Hnq].
    + intros [= <-]. exists (map (Log image) logs), cam_id, frame.
      rewrite shown_logs, Nat.add_0_r.
      split; [reflexivity|]. split; [exact Hq|]. intros j Hj. lia.
    + destruct (main fuel (S calls) client') as [tr0 st0] eqn:E.
      intros [= <- ->].
      destruct (IH _ _ _ E) as (tr' & c & f & -> & Hk & Hbefore).
      exists (map (Log image) logs ++ Imshow image cam_id
                (apply_edge_detection frame) :: tr'), c, f.
      assert (Hs : shown image
                     (map (Log image) logs ++ Imshow image cam_id
                        (apply_edge_detection frame) :: tr')
                   = S (shown image tr')).
      { rewrite shown_app, shown_logs. reflexivity. }
      rewrite Hs. split; [rewrite <- app_assoc; reflexivity|].
      split.
      * replace (calls + S (shown image tr'))%nat
          with (S calls + shown image tr')%nat by lia. exact Hk.
      * intros j Hj. destruct (Nat.eq_dec j calls) as [->|Hne];
          [exact Hnq | apply Hbefore; lia].
  - destruct (main fuel calls client') as [tr0 st0] eqn:E.
    intros [= <- ->].
    destruct (IH _ _ _ E) as (tr' & c & f & -> & Hk & Hbefore).
    exists (map (Log image) logs ++ Warn_skipping image :: tr'), c, f.
    assert (Hs : shown image (map (Log image) logs ++ Warn_skipping image :: tr')
                 = shown image tr').
    { rewrite shown_app, shown_logs. reflexivity. }
    rewrite Hs. split; [rewrite <- app_assoc; reflexivity|].
    split; assumption.
Qed.

(** X6. A run of well-framed frames is handled one frame per pass, in
    the order of arrival: every frame that decodes is shown under its
    camera identifier, every frame that does not is logged and skipped,
    and with no [q] pressed the loop then stands at the byte after the
    last frame. *)
Theorem frames_are_handled_in_order (frames : list (wire_frame * Z)) :
  forall (calls : nat) (rest : socket),
    Forall (fun fc => well_framed fc.1 fc.2) frames ->
    (forall k, Z.land (waitKey k) 255 <> 113) ->
    main (length frames) calls
      (flat_map (fun fc => wf_segments fc.1) frames ++ rest)
    = (flat_map frame_events frames, Running rest).
Proof.
  induction frames as [|[f cam_id] frames IH]; intros calls rest Hwf Hkey;
    [reflexivity|].
  inversion Hwf as [|? ? [Hh Hcs] Hwf']; subst. cbn [fst snd] in Hh, Hcs.
  cbn [length flat_map xeon_stream.main fst]. unfold wf_segments at 1.
  rewrite <- app_assoc. cbn [app].
  rewrite (receive_frame_whole image imdecode (wf_header f) (wf_first f)
             (wf_rest f) _ cam_id Hh Hcs).
  unfold Framing.frame_events at 1. cbn [fst snd]. fold (wf_payload f).
  destruct (imdecode (wf_payload f)) as [frame|].
  - destruct (Z.eqb_spec (Z.land (waitKey calls) 255) 113) as [Hq|_];
      [exfalso; exact (Hkey calls Hq)|].
    rewrite IH by assumption. reflexivity.
  - rewrite IH by assumption. reflexivity.
Qed.

End receiver_properties.

Lemma receive_frame_sound_witness :
  exists header frame_data,
    struct_unpack_II header = Some (1, Z.of_nat (length frame_data))
    /\ ToyCodec.imdecode frame_data = Some [Byte.xff; Byte.xd8; Byte.xd9]
    /\ concat [ [Byte.x00; Byte.x00; Byte.x00; Byte.x01;
                 Byte.x00; Byte.x00; Byte.x00; Byte.x03; Byte.xff];
                [Byte.xd8; Byte.xd9; Byte.x00] ]
       = header ++ frame_data ++ concat [[Byte.x00]].
Proof.
  apply (receive_frame_sound ToyCodec.image ToyCodec.imdecode
           [ [Byte.x00; Byte.x00; Byte.x00; Byte.x01;
              Byte.x00; Byte.x00; Byte.x00; Byte.x03; Byte.xff];
             [Byte.xd8; Byte.xd9; Byte.x00] ]
           [[Byte.x00]] 1 [Byte.xff; Byte.xd8; Byte.xd9] []).
  reflexivity.
Defined.

Lemma truncated_frame_is_closed_witness :
  xeon_stream.receive_frame ToyCodec.image ToyCodec.imdecode
    [ [Byte.x00; Byte.x00; Byte.x00; Byte.x00;
       Byte.x00; Byte.x00; Byte.x00; Byte.x05] ++ [Byte.xff]; [Byte.xd8] ]
  = (None, [xeon_stream.Warn_closed_during_frame], []).
Proof.
  apply (truncated_frame_is_closed ToyCodec.image ToyCodec.imdecode
           [Byte.x00; Byte.x00; Byte.x00; Byte.x00;
            Byte.x00; Byte.x00; Byte.x00; Byte.x05]
           [Byte.xff] [[Byte.xd8]] 0 5).
  - reflexivity.
  - vm_compute. reflexivity.
Defined.

Lemma split_header_is_dropped_witness :
  xeon_stream.receive_frame ToyCodec.image ToyCodec.imdecode
    [ [Byte.x00; Byte.x00; Byte.x00];
      [Byte.x00; Byte.x00; Byte.x00; Byte.x00; Byte.x02; Byte.xff; Byte.xd8] ]
  = (None, [xeon_stream.Warn_incomplete_header],
     [[Byte.x00; Byte.x00; Byte.x00; Byte.x00; Byte.x02; Byte.xff; Byte.xd8]])
  /\ ToyCodec.main 1 0
       [ [Byte.x00; Byte.x00; Byte.x00];
         [Byte.x00; Byte.x00; Byte.x00; Byte.x00; Byte.x02; Byte.xff; Byte.xd8] ]
     = ([xeon_stream.Log ToyCodec.image xeon_stream.Warn_incomplete_header;
         xeon_stream.Warn_skipping ToyCodec.image],
        xeon_stream.Running
          [[Byte.x00; Byte.x00; Byte.x00; Byte.x00; Byte.x02; Byte.xff; Byte.xd8]]).
Proof.
  apply (split_header_is_dropped ToyCodec.image ToyCodec.imdecode
           (fun frame => frame) (fun gray _ _ => gray) (fun _ => -1)
           [Byte.x00; Byte.x00; Byte.x00]).
  - discriminate.
  - simpl. lia.
Defined.

Lemma main_stops_only_after_q_witness :
  exists tr' cam_id frame,
    [xeon_stream.Imshow ToyCodec.image 0 [Byte.xff; Byte.xd8];
     xeon_stream.Imshow ToyCodec.image 1 [Byte.xff; Byte.xd8]]
    = tr' ++ [xeon_stream.Imshow ToyCodec.image cam_id frame]
    /\ Z.land ((fun k : nat => if (k =? 1)%nat then 113 else -1)
                 (0 + shown ToyCodec.image tr')%nat) 255 = 113
    /\ forall j, (0 <= j < 0 + shown ToyCodec.image tr')%nat ->
                 Z.land ((fun k : nat => if (k =? 1)%nat then 113 else -1) j) 255
                 <> 113.
Proof.
  apply (main_stops_only_after_q ToyCodec.image ToyCodec.imdecode
           (fun frame => frame) (fun gray _ _ => gray)
           (fun k : nat => if (k =? 1)%nat then 113 else -1)
           2 0%nat
           [ [Byte.x00; Byte.x00; Byte.x00; Byte.x00;
              Byte.x00; Byte.x00; Byte.x00; Byte.x02]; [Byte.xff; Byte.xd8];
             [Byte.x00; Byte.x00; Byte.x00; Byte.x01;
              Byte.x00; Byte.x00; Byte.x00; Byte.x02]; [Byte.xff; Byte.xd8] ]).
  reflexivity.
Defined.

Lemma frames_are_handled_in_order_witness :
  ToyCodec.main 2 0
    [ [Byte.x00; Byte.x00; Byte.x00; Byte.x00;
       Byte.x00; Byte.x00; Byte.x00; Byte.x02; Byte.x00]; [Byte.x01];
      [Byte.x00; Byte.x00; Byte.x00; Byte.x01;
       Byte.x00; Byte.x00; Byte.x00; Byte.x02]; [Byte.xff]; [Byte.xd8] ]
  = ([xeon_stream.Log ToyCodec.image (xeon_stream.Err_decode 0);
      xeon_stream.Warn_skipping ToyCodec.image;
      xeon_stream.Imshow ToyCodec.image 1 [Byte.xff; Byte.xd8]],
     xeon_stream.Running []).
Proof.
  apply (frames_are_handled_in_order ToyCodec.image ToyCodec.imdecode
           (fun frame => frame) (fun gray _ _ => gray) (fun _ => -1)
           [ ({| wf_header := [Byte.x00; Byte.x00; Byte.x00; Byte.x00;
                               Byte.x00; Byte.x00; Byte.x00; Byte.x02];
                 wf_first := [Byte.x00];
                 wf_rest := [[Byte.x01]] |}, 0);
             ({| wf_header := [Byte.x00; Byte.x00; Byte.x00; Byte.x01;
                               Byte.x00; Byte.x00; Byte.x00; Byte.x02];
                 wf_first := [];
                 wf_rest := [[Byte.xff]; [Byte.xd8]] |}, 1) ]
           0%nat []).
  - repeat constructor; discriminate.
  - intros k. discriminate.
Defined.

(** ** Further properties of the stereo server *)

Section depth_server_properties.

Import xeon_stream_depth.

Variable cv : Cv.

Abbreviation store := (store cv).
Abbreviation refresh := (refresh cv).
Abbreviation pass := (pass cv).
Abbreviation main := (main cv).
Abbreviation generate_mjpeg_stream := (generate_mjpeg_stream cv).
Abbreviation keys_present := (keys_present cv).
Abbreviation both_filled := (both_filled cv).
Abbreviation depth_tracks_slots := (depth_tracks_slots cv).
Abbreviation matcher_raises := (matcher_raises cv).
Abbreviation refreshed := (Cache.refreshed cv).
Abbreviation gray := (cvtColor_BGR2GRAY cv).

Lemma store_keys_present (cam_id : Z) (frame : image cv) (g : globals cv) :
  keys_present g -> keys_present (store cam_id frame g).
Proof.
  intros [H0 H1]. unfold Cache.keys_present, xeon_stream_depth.store.
  cbn [latest_frames]. rewrite !lookup_insert_is_Some. split.
  - destruct (decide (cam_id = 0)); [left; assumption | right; auto].
  - destruct (decide (cam_id = 1)); [left; assumption | right; auto].
Qed.

Lemma store_both_filled (cam_id : Z) (frame : image cv) (g : globals cv) :
  both_filled g -> both_filled (store cam_id frame g).
Proof.
  intros [[a Ha] [b Hb]]. unfold Cache.both_filled, xeon_stream_depth.store.
  cbn [latest_frames]. split.
  - destruct (decide (cam_id = 0)) as [->|Hne].
    + exists frame. apply lookup_insert_eq.
    + exists a. rewrite lookup_insert_ne by exact Hne. exact Ha.
  - destruct (decide (cam_id = 1)) as [->|Hne].
    + exists frame. apply lookup_insert_eq.
    + exists b. rewrite lookup_insert_ne by exact Hne. exact Hb.
Qed.

(** With both keys in the dict, lines 181-186 do one of three things:
    leave the state alone because a slot is empty; bind the depth map of
    the two cached frames and put the annotated frames back; or raise,
    because the block matcher raises on the two cached frames. *)
Lemma refresh_cases (g : globals cv) (l : locals cv) :
  keys_present g ->
  (~ both_filled g /\ refresh g l = Some (g, l))
  \/ (exists a b d,
        latest_frames cv g !! 0 = Some (Some a)
        /\ latest_frames cv g !! 1 = Some (Some b)
        /\ StereoBM_compute cv (gray a) (gray b) = Some d
        /\ refresh g l = Some (refreshed g a b d))
  \/ (matcher_raises g /\ refresh g l = None).
Proof.
  intros [[o0 H0] [o1 H1]]. unfold xeon_stream_depth.refresh.
  rewrite H0. cbn [mbind option_bind].
  destruct o0 as [a|].
  - rewrite H1. cbn [mbind option_bind].
    destruct o1 as [b|].
    + cbn [compute_depth_map].
      destruct (StereoBM_compute cv (gray a) (gray b)) as [d|] eqn:E.
      * right; left. exists a, b, d.
        split; [reflexivity|]. split; [reflexivity|]. split; [exact E|].
        cbn [mbind option_bind].
        rewrite lookup_insert_ne by discriminate. rewrite H1.
        reflexivity.
      * right; right. split; [|reflexivity].
        exists a, b. auto.
    + left. split; [|reflexivity].
      intros [_ [b Hb]]. congruence.
  - left. split; [|reflexivity].
    intros [[a Ha] _]. congruence.
Qed.

Lemma refreshed_both_filled (g : globals cv) (a b d : image cv) :
  both_filled (refreshed g a b d).1 /\ keys_present (refreshed g a b d).1.
Proof.
  assert (Hb : both_filled (refreshed g a b d).1).
  { split; cbn [Cache.refreshed fst latest_frames]; eexists.
    - rewrite lookup_insert_ne by discriminate. apply lookup_insert_eq.
    - apply lookup_insert_eq. }
  split; [exact Hb|].
  destruct Hb as [[x Hx] [y Hy]]. split; eexists; eassumption.
Qed.

(** One pass of the loop keeps both keys in the dict, never unbinds
    the depth map, and ends the loop only when the block matcher raises
    on the two cached frames. *)
Lemma pass_invariant (cam_id : Z) (frame : image cv) (g : globals cv)
      (l : locals cv) :
  keys_present g -> depth_tracks_slots g l ->
  keys_present (pass cam_id frame g l).1.1
  /\ (main_latest_depth cv (pass cam_id frame g l).1.2 <> None ->
      both_filled (pass cam_id frame g l).1.1)
  /\ ((pass cam_id frame g l).2 = Running ->
      depth_tracks_slots (pass cam_id frame g l).1.1 (pass cam_id frame g l).1.2)
  /\ ((pass cam_id frame g l).2 = Raised ->
      matcher_raises (pass cam_id frame g l).1.1).
Proof.
  intros Hk Hd. unfold xeon_stream_depth.pass.
  pose proof (store_keys_present cam_id frame g Hk) as Hk'.
  destruct (refresh_cases (store cam_id frame g) l Hk')
    as [[Hnb ->]|[(a & b & d & _ & _ & _ & ->)|[Hraise ->]]];
    cbn [fst snd].
  - split; [exact Hk'|].
    assert (Hl : main_latest_depth cv l <> None ->
                 both_filled (store cam_id frame g))
      by (intros Hl; apply store_both_filled, Hd, Hl).
    split; [exact Hl|]. split; [|discriminate].
    intros _. split; [exact Hl | intros Hb; contradiction].
  - destruct (refreshed_both_filled (store cam_id frame g) a b d) as [Hb Hkr].
    unfold Cache.refreshed in *. cbn [fst snd] in *.
    split; [exact Hkr|]. split; [intros _; exact Hb|].
    split; [|discriminate].
    intros _. split; [intros _; exact Hb | intros _; discriminate].
  - split; [exact Hk'|].
    split; [intros Hl; apply store_both_filled, Hd, Hl|].
    split; [discriminate|]. intros _. exact Hraise.
Qed.

Lemma main_invariant (fuel : nat) :
  forall (client : socket) (g : globals cv) (l : locals cv),
    keys_present g -> depth_tracks_slots g l ->
    keys_present (main fuel client g l).1.1.2
    /\ (main_latest_depth cv (main fuel client g l).1.2 <> None ->
        both_filled (main fuel client g l).1.1.2)
    /\ ((main fuel client g l).2 = Running ->
        depth_tracks_slots (main fuel client g l).1.1.2
          (main fuel client g l).1.2)
    /\ ((main fuel client g l).2 = Raised ->
        matcher_raises (main fuel client g l).1.1.2).
Proof.
  induction fuel as [|fuel IH]; intros client g l Hk Hd.
  - cbn. split; [exact Hk|]. split; [apply Hd|].
    split; [intros _; exact Hd | discriminate].
  - cbn [xeon_stream_depth.main].
    destruct (xeon_stream.receive_frame (image cv) (imdecode cv) client)
      as [[[[cam_id frame]|] logs] client']; [|apply IH; assumption].
    pose proof (pass_invariant cam_id frame g l Hk Hd) as (Hk' & Hl' & Hr' & Hx').
    destruct (pass cam_id frame g l) as [[g' l'] [|]]; cbn [fst snd] in *.
    + apply IH; [exact Hk' | apply Hr'; reflexivity].
    + split; [exact Hk'|]. split; [exact Hl'|]. split; [discriminate|].
      exact Hx'.
Qed.

Lemma module_init_invariant :
  keys_present (module_init cv)
  /\ depth_tracks_slots (module_init cv) (main_init cv).
Proof.
  split; [split; eexists; reflexivity|].
  split; [intros H; exfalso; apply H; reflexivity|].
  intros [[a Ha] _]. discriminate Ha.
Qed.

(** X7. The loop of the stereo server never fails on a dict lookup:
    whatever the stream, and whatever camera identifiers the frames
    carry, the keys 0 and 1 stay in [latest_frames]; when an exception
    has ended the loop, it is the block matcher that raised, on the two
    frames then cached. *)
Theorem depth_loop_ends_only_on_matcher_error (fuel : nat) (client : socket) :
  keys_present (main fuel client (module_init cv) (main_init cv)).1.1.2
  /\ ((main fuel client (module_init cv) (main_init cv)).2 = Raised ->
      matcher_raises (main fuel client (module_init cv) (main_init cv)).1.1.2).
Proof.
  destruct module_init_invariant as [Hk Hd].
  destruct (main_invariant fuel client _ _ Hk Hd) as (Hk' & _ & _ & Hx).
  split; assumption.
Qed.

(** X8. [main] holds a depth map only when both camera slots hold a
    frame, and while the loop is running it holds one as soon as they
    do: none is computed while one camera has not delivered, and one is
    computed in the very pass that fills the second slot, unless the
    block matcher raises in that pass. *)
Theorem depth_bound_with_both_cameras (fuel : nat) (client : socket) :
  (main_latest_depth cv
     (main fuel client (module_init cv) (main_init cv)).1.2 <> None ->
   both_filled (main fuel client (module_init cv) (main_init cv)).1.1.2)
  /\ ((main fuel client (module_init cv) (main_init cv)).2 = Running ->
      both_filled (main fuel client (module_init cv) (main_init cv)).1.1.2 ->
      main_latest_depth cv
        (main fuel client (module_init cv) (main_init cv)).1.2 <> None).
Proof.
  destruct module_init_invariant as [Hk Hd].
  destruct (main_invariant fuel client _ _ Hk Hd) as (_ & Hl & Hr & _).
  split; [exact Hl|]. intros Hrun. apply (Hr Hrun).
Qed.

(** X9. Reading a camera channel after a pass for a frame of that camera
    returns that frame: as it came while the other camera has no frame
    yet, or when the block matcher raises on the pair; and with the
    detections drawn on it, against the normalised disparity of the two
    cached frames, when the matcher returns. *)
Theorem camera_channel_read_after_write (g : globals cv) (l : locals cv)
        (frame : image cv) (o0 o1 : option (image cv)) :
  latest_frames cv g !! 0 = Some o0 ->
  latest_frames cv g !! 1 = Some o1 ->
  generate_mjpeg_stream (cam 0) (pass 0 frame g l).1.1
  = Some (match o1 with
          | Some other =>
              match StereoBM_compute cv (gray frame) (gray other) with
              | Some d => (annotate cv frame (normalize cv d)).1
              | None => frame
              end
          | None => frame
          end)
  /\ generate_mjpeg_stream (cam 1) (pass 1 frame g l).1.1
     = Some (match o0 with
             | Some other =>
                 match StereoBM_compute cv (gray other) (gray frame) with
                 | Some d => (annotate cv frame (normalize cv d)).1
                 | None => frame
                 end
             | None => frame
             end).
Proof.
  intros H0 H1.
  split; unfold xeon_stream_depth.pass, xeon_stream_depth.refresh,
           xeon_stream_depth.store;
    cbn [latest_frames latest_depth].
  - rewrite lookup_insert_eq. cbn [mbind option_bind].
    rewrite lookup_insert_ne by discriminate. rewrite H1.
    cbn [mbind option_bind].
    destruct o1 as [other|];
      [cbn [compute_depth_map];
       destruct (StereoBM_compute cv (gray frame) (gray other)) as [d|]|];
      repeat first [ rewrite lookup_insert_eq
                   | rewrite lookup_insert_ne by discriminate
                   | rewrite H1
                   | progress cbn [mbind option_bind fst snd
                                     detect_objects_and_depth
                                     xeon_stream_depth.generate_mjpeg_stream
                                     latest_frames] ];
      reflexivity.
  - rewrite lookup_insert_ne by discriminate. rewrite H0.
    cbn [mbind option_bind].
    destruct o0 as [other|];
      [rewrite lookup_insert_eq; cbn [mbind option_bind compute_depth_map];
       destruct (StereoBM_compute cv (gray other) (gray frame)) as [d|]|];
      repeat first [ rewrite lookup_insert_eq
                   | rewrite lookup_insert_ne by discriminate
                   | rewrite H0
                   | progress cbn [mbind option_bind fst snd
                                     detect_objects_and_depth
                                     xeon_stream_depth.generate_mjpeg_stream
                                     latest_frames] ];
      reflexivity.
Qed.

Lemma pass_refreshed (cam_id : Z) (frame : image cv) (g : globals cv)
      (l : locals cv) (a b d : image cv) :
  latest_frames cv (store cam_id frame g) !! 0 = Some (Some a) ->
  latest_frames cv (store cam_id frame g) !! 1 = Some (Some b) ->
  StereoBM_compute cv (gray a) (gray b) = Some d ->
  pass cam_id frame g l
  = ((refreshed (store cam_id frame g) a b d).1,
     (refreshed (store cam_id frame g) a b d).2, Running).
Proof.
  intros Ha Hb Hd.
  assert (Hk : keys_present (store cam_id frame g))
    by (split; eexists; eassumption).
  unfold xeon_stream_depth.pass.
  destruct (refresh_cases (store cam_id frame g) l Hk)
    as [[Hnb _]|[(a' & b' & d' & Ha' & Hb' & Hd' & ->)|[(a' & b' & Ha' & Hb' & Hd') _]]].
  - exfalso. apply Hnb. split; eexists; eassumption.
  - rewrite Ha in Ha'. rewrite Hb in Hb'.
    injection Ha' as <-. injection Hb' as <-.
    rewrite Hd in Hd'. injection Hd' as <-. reflexivity.
  - rewrite Ha in Ha'. rewrite Hb in Hb'.
    injection Ha' as <-. injection Hb' as <-. congruence.
Qed.

(** X10. The cached frame of the camera that did not send is used as it
    stands.  After a frame of camera 0, one of camera 1 and another of
    camera 1, with the block matcher returning both times, the second
    depth map is computed from the already annotated frame of camera 0,
    and that frame is annotated a second time. *)
Theorem annotations_accumulate (f0 f1 f1' d1 d2 : image cv) :
  StereoBM_compute cv (gray f0) (gray f1) = Some d1 ->
  StereoBM_compute cv (gray (annotate cv f0 (normalize cv d1)).1) (gray f1')
  = Some d2 ->
  exists g1 l1 g2 l2 g3 l3,
    pass 0 f0 (module_init cv) (main_init cv) = (g1, l1, Running)
    /\ pass 1 f1 g1 l1 = (g2, l2, Running)
    /\ pass 1 f1' g2 l2 = (g3, l3, Running)
    /\ main_latest_depth cv l3 = Some (Some (normalize cv d2))
    /\ generate_mjpeg_stream (cam 0) g3
       = Some (annotate cv (annotate cv f0 (normalize cv d1)).1
                        (normalize cv d2)).1.
Proof.
  intros H1 H2.
  eexists _, _, _, _, _, _.
  split; [reflexivity|].
  split; [apply (pass_refreshed 1 f1 _ _ f0 f1 d1); [reflexivity..|exact H1]|].
  split.
  { apply (pass_refreshed 1 f1' _ _ (annotate cv f0 (normalize cv d1)).1 f1' d2);
      [reflexivity..|exact H2]. }
  split; reflexivity.
Qed.

(** X20. The stereo server does not filter camera identifiers.  A frame
    that arrives under an identifier other than 0 and 1 is stored under
    that identifier, and a read of the feed of that identifier returns
    the frame as it came; no lookup fails, and the pass raises only when
    the block matcher raises on the two cached camera frames.  When it
    does not raise on them, lines 181-186 complete and the feed of that
    identifier still returns the frame. *)
Theorem unexpected_camera_is_stored (g : globals cv) (l : locals cv)
        (cam_id : Z) (frame : image cv) :
  keys_present g -> cam_id <> 0 -> cam_id <> 1 ->
  generate_mjpeg_stream (cam cam_id) (pass cam_id frame g l).1.1 = Some frame
  /\ ((pass cam_id frame g l).2 = Raised -> matcher_raises g)
  /\ (~ matcher_raises g ->
      exists g' l',
        refresh (store cam_id frame g) l = Some (g', l')
        /\ generate_mjpeg_stream (cam cam_id) g' = Some frame).
Proof.
  intros Hk H0 H1. unfold xeon_stream_depth.pass.
  assert (Hstored : generate_mjpeg_stream (cam cam_id) (store cam_id frame g)
                    = Some frame).
  { cbn [xeon_stream_depth.generate_mjpeg_stream xeon_stream_depth.store
           latest_frames].
    rewrite lookup_insert_eq. reflexivity. }
  assert (Hkept : forall a b d,
             generate_mjpeg_stream (cam cam_id)
               (refreshed (store cam_id frame g) a b d).1 = Some frame).
  { intros a b d.
    cbn [xeon_stream_depth.generate_mjpeg_stream xeon_stream_depth.store
           Cache.refreshed fst latest_frames].
    rewrite lookup_insert_ne by congruence.
    rewrite lookup_insert_ne by congruence.
    rewrite lookup_insert_eq. reflexivity. }
  destruct (refresh_cases (store cam_id frame g) l
              (store_keys_present cam_id frame g Hk))
    as [[_ ->]|[(a & b & d & _ & _ & _ & ->)|[(a & b & Ha & Hb & Hd) ->]]];
    cbn [fst snd].
  - split; [exact Hstored|]. split; [discriminate|].
    intros _. exists (store cam_id frame g), l. split; [reflexivity|exact Hstored].
  - split; [apply Hkept|]. split; [discriminate|].
    intros _. eexists _, _. split; [reflexivity|apply Hkept].
  - assert (Hraise : matcher_raises g).
    { exists a, b.
      cbn [xeon_stream_depth.store latest_frames] in Ha, Hb.
      rewrite lookup_insert_ne in Ha by congruence.
      rewrite lookup_insert_ne in Hb by congruence.
      auto. }
    split; [exact Hstored|]. split; [intros _; exact Hraise|].
    intros Hn. contradiction.
Qed.

End depth_server_properties.

Lemma depth_loop_ends_only_on_matcher_error_witness :
  (xeon_stream_depth.main ToyStereo.cv 2 ToyStereo.toy_stream_mismatched
     (xeon_stream_depth.module_init ToyStereo.cv)
     (xeon_stream_depth.main_init ToyStereo.cv)).2
  = xeon_stream_depth.Raised
  /\ Cache.keys_present ToyStereo.cv
       (xeon_stream_depth.main ToyStereo.cv 2 ToyStereo.toy_stream_mismatched
          (xeon_stream_depth.module_init ToyStereo.cv)
          (xeon_stream_depth.main_init ToyStereo.cv)).1.1.2
  /\ Cache.matcher_raises ToyStereo.cv
       (xeon_stream_depth.main ToyStereo.cv 2 ToyStereo.toy_stream_mismatched
          (xeon_stream_depth.module_init ToyStereo.cv)
          (xeon_stream_depth.main_init ToyStereo.cv)).1.1.2.
Proof.
  destruct (depth_loop_ends_only_on_matcher_error ToyStereo.cv 2
              ToyStereo.toy_stream_mismatched) as [Hkeys Hraised].
  split; [vm_compute; reflexivity|].
  split; [exact Hkeys|].
  apply Hraised. vm_compute. reflexivity.
Defined.

Lemma depth_bound_with_both_cameras_witness :
  (xeon_stream_depth.main ToyStereo.cv 2 ToyStereo.toy_stream_pair
     (xeon_stream_depth.module_init ToyStereo.cv)
     (xeon_stream_depth.main_init ToyStereo.cv)).2
  = xeon_stream_depth.Running
  /\ Cache.both_filled ToyStereo.cv
       (xeon_stream_depth.main ToyStereo.cv 2 ToyStereo.toy_stream_pair
          (xeon_stream_depth.module_init ToyStereo.cv)
          (xeon_stream_depth.main_init ToyStereo.cv)).1.1.2
  /\ xeon_stream_depth.main_latest_depth ToyStereo.cv
       (xeon_stream_depth.main ToyStereo.cv 2 ToyStereo.toy_stream_pair
          (xeon_stream_depth.module_init ToyStereo.cv)
          (xeon_stream_depth.main_init ToyStereo.cv)).1.2
     <> None.
Proof.
  destruct (depth_bound_with_both_cameras ToyStereo.cv 2
              ToyStereo.toy_stream_pair) as [Honly Hsoon].
  assert (Hrun : (xeon_stream_depth.main ToyStereo.cv 2 ToyStereo.toy_stream_pair
                    (xeon_stream_depth.module_init ToyStereo.cv)
                    (xeon_stream_depth.main_init ToyStereo.cv)).2
                 = xeon_stream_depth.Running) by (vm_compute; reflexivity).
  assert (Hboth : Cache.both_filled ToyStereo.cv
                    (xeon_stream_depth.main ToyStereo.cv 2 ToyStereo.toy_stream_pair
                       (xeon_stream_depth.module_init ToyStereo.cv)
                       (xeon_stream_depth.main_init ToyStereo.cv)).1.1.2).
  { apply Honly. vm_compute. discriminate. }
  split; [exact Hrun|]. split; [exact Hboth|].
  apply Hsoon; assumption.
Defined.

Lemma camera_channel_read_after_write_witness :
  xeon_stream_depth.generate_mjpeg_stream ToyStereo.cv (xeon_stream_depth.cam 0)
    (xeon_stream_depth.pass ToyStereo.cv 0 ToyStereo.left ToyStereo.toy_right_cached
       (xeon_stream_depth.main_init ToyStereo.cv)).1.1
  = Some (match Some ToyStereo.right with
          | Some other =>
              match ToyStereo.StereoBM_compute ToyStereo.left other with
              | Some d =>
                  (xeon_stream_depth.annotate ToyStereo.cv ToyStereo.left
                     (ToyStereo.normalize d)).1
              | None => ToyStereo.left
              end
          | None => ToyStereo.left
          end)
  /\ xeon_stream_depth.generate_mjpeg_stream ToyStereo.cv (xeon_stream_depth.cam 1)
       (xeon_stream_depth.pass ToyStereo.cv 1 ToyStereo.left ToyStereo.toy_right_cached
          (xeon_stream_depth.main_init ToyStereo.cv)).1.1
     = Some (match @None ToyStereo.image with
             | Some other =>
                 match ToyStereo.StereoBM_compute other ToyStereo.left with
                 | Some d =>
                     (xeon_stream_depth.annotate ToyStereo.cv ToyStereo.left
                        (ToyStereo.normalize d)).1
                 | None => ToyStereo.left
                 end
             | None => ToyStereo.left
             end).
Proof.
  apply (camera_channel_read_after_write ToyStereo.cv ToyStereo.toy_right_cached
           (xeon_stream_depth.main_init ToyStereo.cv) ToyStereo.left
           None (Some ToyStereo.right)).
  - reflexivity.
  - reflexivity.
Defined.

(** On the toy views the frame read back is the annotated one: the box
    drawn on it has whitened its corner pixel. *)
Lemma toy_frame_is_annotated :
  xeon_stream_depth.generate_mjpeg_stream ToyStereo.cv (xeon_stream_depth.cam 0)
    (xeon_stream_depth.pass ToyStereo.cv 0 ToyStereo.left ToyStereo.toy_right_cached
       (xeon_stream_depth.main_init ToyStereo.cv)).1.1
  = Some (alter (fun row => <[4%nat := 255]> row) 0%nat ToyStereo.left)
  /\ alter (fun row => <[4%nat := 255]> row) 0%nat ToyStereo.left
     <> ToyStereo.left.
Proof.
  split; [vm_compute; reflexivity | vm_compute; discriminate].
Qed.

Lemma annotations_accumulate_witness :
  exists g1 l1 g2 l2 g3 l3,
    xeon_stream_depth.pass ToyStereo.cv 0 ToyStereo.left
      (xeon_stream_depth.module_init ToyStereo.cv)
      (xeon_stream_depth.main_init ToyStereo.cv)
    = (g1, l1, xeon_stream_depth.Running)
    /\ xeon_stream_depth.pass ToyStereo.cv 1 ToyStereo.right g1 l1
       = (g2, l2, xeon_stream_depth.Running)
    /\ xeon_stream_depth.pass ToyStereo.cv 1 ToyStereo.right g2 l2
       = (g3, l3, xeon_stream_depth.Running)
    /\ xeon_stream_depth.main_latest_depth ToyStereo.cv l3
       = Some (Some (ToyStereo.normalize ToyStereo.toy_disparity_again))
    /\ xeon_stream_depth.generate_mjpeg_stream ToyStereo.cv
         (xeon_stream_depth.cam 0) g3
       = Some (xeon_stream_depth.annotate ToyStereo.cv
                 (xeon_stream_depth.annotate ToyStereo.cv ToyStereo.left
                    (ToyStereo.normalize ToyStereo.toy_disparity)).1
                 (ToyStereo.normalize ToyStereo.toy_disparity_again)).1.
Proof.
  apply (annotations_accumulate ToyStereo.cv ToyStereo.left ToyStereo.right
           ToyStereo.right ToyStereo.toy_disparity ToyStereo.toy_disparity_again).
  - vm_compute. reflexivity.
  - vm_compute. reflexivity.
Defined.

Lemma unexpected_camera_is_stored_witness :
  xeon_stream_depth.generate_mjpeg_stream ToyStereo.cv (xeon_stream_depth.cam 7)
    (xeon_stream_depth.pass ToyStereo.cv 7 ToyStereo.left ToyStereo.toy_both_cached
       (xeon_stream_depth.main_init ToyStereo.cv)).1.1
  = Some ToyStereo.left
  /\ ((xeon_stream_depth.pass ToyStereo.cv 7 ToyStereo.left ToyStereo.toy_both_cached
         (xeon_stream_depth.main_init ToyStereo.cv)).2
      = xeon_stream_depth.Raised ->
      Cache.matcher_raises ToyStereo.cv ToyStereo.toy_both_cached)
  /\ (~ Cache.matcher_raises ToyStereo.cv ToyStereo.toy_both_cached ->
      exists g' l',
        xeon_stream_depth.refresh ToyStereo.cv
          (xeon_stream_depth.store ToyStereo.cv 7 ToyStereo.left ToyStereo.toy_both_cached)
          (xeon_stream_depth.main_init ToyStereo.cv) = Some (g', l')
        /\ xeon_stream_depth.generate_mjpeg_stream ToyStereo.cv
             (xeon_stream_depth.cam 7) g' = Some ToyStereo.left).
Proof.
  apply (unexpected_camera_is_stored ToyStereo.cv ToyStereo.toy_both_cached
           (xeon_stream_depth.main_init ToyStereo.cv) 7 ToyStereo.left).
  - split; eexists; reflexivity.
  - discriminate.
  - discriminate.
Defined.

(** ** Further properties of the single-camera server *)

Section cal_server_properties.

Import server_stream_cal_1.
Local Open Scope string_scope.

Variable image : Type.
Variable contour : Type.
Variable float : Type.
Variable fmul : float -> float -> float.
Variable fgt : float -> float -> bool.
Variable float_of_int : Z -> float.
Variable f0 f0_1 f0_04 : float.
Variable SQUARE_DIMS : float * float.
Variable blue_mask : image -> image.
Variable findContours : image -> list contour.
Variable shape : image -> Z * Z.
Variable contourArea : contour -> float.
Variable arcLength : contour -> bool -> float.
Variable approxPolyDP : contour -> float -> bool -> list point.
Variable boundingRect : list point -> Z * Z * Z * Z.
Variable solvePnP :
  list (float * float * float) -> list point -> bool * (float * float * float).
Variable draw_detection : image -> list point -> Z * Z -> float -> image.
Variable Canny : image -> Z -> Z -> image.
Variable cvtColor_BGR2GRAY : image -> image.
Variable imdecode : bytes -> option image.

Abbreviation scan :=
  (scan image contour float fmul fgt f0 f0_04 SQUARE_DIMS contourArea
     arcLength approxPolyDP boundingRect solvePnP draw_detection).
Abbreviation detect_framing_square :=
  (detect_framing_square image contour float fmul fgt float_of_int f0 f0_1
     f0_04 SQUARE_DIMS blue_mask findContours shape contourArea arcLength
     approxPolyDP boundingRect solvePnP draw_detection Canny
     cvtColor_BGR2GRAY).
Abbreviation update :=
  (update image contour float fmul fgt float_of_int f0 f0_1
     f0_04 SQUARE_DIMS blue_mask findContours shape contourArea arcLength
     approxPolyDP boundingRect solvePnP draw_detection Canny
     cvtColor_BGR2GRAY).
Abbreviation main :=
  (main image contour float fmul fgt float_of_int f0 f0_1
     f0_04 SQUARE_DIMS blue_mask findContours shape contourArea arcLength
     approxPolyDP boundingRect solvePnP draw_detection Canny
     cvtColor_BGR2GRAY imdecode).
Abbreviation polygon := (polygon contour float fmul f0_04 arcLength approxPolyDP).
Abbreviation target :=
  (target contour float fmul fgt f0_04 contourArea arcLength approxPolyDP).

Lemma update_globals (cam_id : Z) (frame : image) (g : globals image)
      (l : locals image) :
  exists l', update cam_id frame g l = Some (g, l').
Proof.
  unfold server_stream_cal_1.update.
  destruct (negb (cam_id =? EXPECTED_CAMERA)%Z); [eexists; reflexivity|].
  unfold server_stream_cal_1.detect_framing_square.
  destruct (scan _ _ _ _) as [output_frame distance].
  eexists. reflexivity.
Qed.

Lemma cal_main_globals (fuel : nat) :
  forall (client : socket) (g : globals image) (l : locals image),
    (main fuel client g l).1.1.2 = g /\ (main fuel client g l).2 = Running.
Proof.
  induction fuel as [|fuel IH]; intros client g l; [auto|].
  cbn [server_stream_cal_1.main].
  destruct (xeon_stream.receive_frame image imdecode client)
    as [[[[cam_id frame]|] logs] client']; [|apply IH].
  destruct (update_globals cam_id frame g l) as [l' ->]. apply IH.
Qed.

(** X11. In the single-camera server no stream ever reaches the web
    feed: however many frames are received and processed, both
    module-level slots are still empty, every read of
    [/video_feed/<data_type>] finds nothing to send, and the loop is
    still running. *)
Theorem cal_feed_never_has_a_frame (fuel : nat) (client : socket)
        (data_type : string) :
  generate_mjpeg_stream image data_type
    (main fuel client (module_init image) (main_init image)).1.1.2 = None
  /\ (main fuel client (module_init image) (main_init image)).2 = Running.
Proof.
  destruct (cal_main_globals fuel client (module_init image) (main_init image))
    as [-> ->].
  split; [|reflexivity].
  unfold server_stream_cal_1.generate_mjpeg_stream.
  destruct (String.eqb data_type "frame"); reflexivity.
Qed.

Lemma scan_output (min_area : float) (contours : list contour)
      (output_frame : image) :
  scan min_area contours output_frame None
  = match find (target min_area) contours with
    | Some c =>
        let '(x, y, w, h) := boundingRect (polygon c) in
        let '(ret, (_, _, tz)) :=
          solvePnP (obj_points float f0 SQUARE_DIMS) (polygon c) in
        if ret
        then (draw_detection output_frame (polygon c) (x, (y - 10)%Z) tz, Some tz)
        else (output_frame, None)
    | None => (output_frame, None)
    end.
Proof.
  induction contours as [|c contours IH]; [reflexivity|].
  cbn [server_stream_cal_1.scan find]. unfold Vocabulary.target at 1.
  destruct (fgt (contourArea c) min_area); cbn [andb]; [|exact IH].
  fold (polygon c).
  destruct (length (polygon c) =? 4)%nat; [|exact IH].
  reflexivity.
Qed.

(** X12. What the detector publishes.  The edge map is the Canny map of
    the input frame whether or not a target is found.  Without a
    reported distance the output frame is the input frame, untouched;
    with one, it is the input frame with that single detection drawn,
    the label ten pixels above the corner of the target's bounding box. *)
Theorem detector_output (frame : image) :
  exists output_frame distance,
    detect_framing_square (Some frame)
    = Some (output_frame, Canny (cvtColor_BGR2GRAY frame) 100 200, distance)
    /\ (distance = None -> output_frame = frame)
    /\ (forall tz, distance = Some tz ->
        exists c x y w h,
          find (target (fmul (fmul f0_1 (float_of_int (shape frame).1))
                             (float_of_int (shape frame).2)))
               (findContours (blue_mask frame)) = Some c
          /\ boundingRect (polygon c) = (x, y, w, h)
          /\ output_frame
             = draw_detection frame (polygon c) (x, (y - 10)%Z) tz).
Proof.
  unfold server_stream_cal_1.detect_framing_square.
  rewrite scan_output.
  destruct (find _ (findContours (blue_mask frame))) as [c|] eqn:Hfind.
  - destruct (boundingRect (polygon c)) as [[[x y] w] h] eqn:Hb.
    destruct (solvePnP _ (polygon c)) as [ret [[tx ty] tz]].
    destruct ret.
    + eexists _, _. split; [reflexivity|]. split; [discriminate|].
      intros tz' [= <-]. exists c, x, y, w, h. auto.
    + eexists _, _. split; [reflexivity|]. split; [reflexivity|].
      discriminate.
  - eexists _, _. split; [reflexivity|]. split; [reflexivity|].
    discriminate.
Qed.

End cal_server_properties.

(** ** Further properties of the handshake *)

Section handshake_more.

Import xeon_handshake.
Local Open Scope string_scope.

Variable json_dumps : json -> bytes.
Variable json_loads : bytes -> option json.

Abbreviation handle_handshake := (handle_handshake json_loads).
Abbreviation send_handshake :=
  (pi_handshake.send_handshake json_dumps json_loads).

(** X13. Whatever arrives and whatever the parser makes of it, the
    server sends at most one reply, and sends it only when the bytes of
    its two reads parse to a payload of the accepted shape; the reply
    then carries that payload's timestamp. *)
Theorem server_sends_at_most_one_ack (client : socket) :
  acks (handle_handshake client).2 = []
  \/ exists p ts,
       json_loads
         (recv (int_from_bytes (recv 4 client).1) (recv 4 client).2).1 = Some p
       /\ accepted_shape p
       /\ subscript p "timestamp" = Some ts
       /\ acks (handle_handshake client).2 = [ack ts].
Proof.
  unfold xeon_handshake.handle_handshake.
  destruct (recv 4 client) as [length_bytes c1]. cbn [fst snd].
  destruct length_bytes as [|b0 bs]; [left; reflexivity|].
  destruct (recv (int_from_bytes (b0 :: bs)) c1) as [payload_bytes c2].
  cbn [fst snd].
  destruct (json_loads payload_bytes) as [p|]; [|left; reflexivity].
  cbn [snd].
  change (acks (Json_loads payload_bytes :: Log_received p :: respond p))
    with (acks (respond p)).
  destruct (acks (respond p)) as [|a0 rest] eqn:E; [left; reflexivity|].
  right.
  assert (Hne : acks (respond p) <> []) by (rewrite E; discriminate).
  pose proof (respond_ack_inv p Hne) as Hshape.
  destruct (respond_accepted p Hshape) as (ts & Hts & Hresp).
  exists p, ts. repeat split; try assumption.
  rewrite <- E, Hresp. reflexivity.
Qed.

(** X14. The length prefix is read with one [recv(4)].  When it arrives
    cut after one, two or three bytes and the body is short enough for
    those bytes to be zero, the server takes the length to be zero, reads
    nothing, and hands the empty byte string to the JSON parser. *)
Theorem short_prefix_parses_nothing (k : nat) (L : Z) (rest : socket) :
  (1 <= k <= 3)%nat -> (0 <= L < 256 ^ (4 - Z.of_nat k))%Z ->
  exists tr,
    (handle_handshake (take k (to_bytes4 L) :: rest)).2 = Json_loads [] :: tr.
Proof.
  intros Hk HL.
  assert (Hzero : int_from_bytes (take k (to_bytes4 L)) = 0%Z
                  /\ take k (to_bytes4 L) <> []
                  /\ (length (take k (to_bytes4 L)) <= 4)%nat).
  { assert (Hb : byte_of_Z 0 = Byte.x00) by reflexivity.
    destruct k as [|[|[|[|k]]]]; try lia; unfold to_bytes4; cbn [take].
    - change (256 ^ (4 - Z.of_nat 1))%Z with 16777216%Z in HL.
      rewrite (Z.div_small L 16777216) by lia. rewrite Hb.
      repeat split; [discriminate | simpl; lia].
    - change (256 ^ (4 - Z.of_nat 2))%Z with 65536%Z in HL.
      rewrite (Z.div_small L 16777216), (Z.div_small L 65536) by lia.
      rewrite Hb. repeat split; [discriminate | simpl; lia].
    - change (256 ^ (4 - Z.of_nat 3))%Z with 256%Z in HL.
      rewrite (Z.div_small L 16777216), (Z.div_small L 65536),
        (Z.div_small L 256) by lia.
      rewrite Hb. repeat split; [discriminate | simpl; lia]. }
  destruct Hzero as (Hint & Hne & Hlen).
  unfold xeon_handshake.handle_handshake.
  rewrite (recv_whole 4 (take k (to_bytes4 L))) by (auto; lia).
  destruct (take k (to_bytes4 L)) as [|b0 bs] eqn:E; [contradiction|].
  rewrite Hint.
  assert (Hr : (recv 0 rest).1 = []) by (destruct rest; reflexivity).
  destruct (recv 0 rest) as [payload_bytes c2]. cbn [fst] in Hr. subst.
  destruct (json_loads []); eexists; reflexivity.
Qed.

(** X15. The two ends of the handshake fit together.  When the JSON
    library reads back what it wrote for the request and for the reply,
    and each message reaches the other side in one piece, the server
    acknowledges the request of [send_handshake] with the timestamp it
    was sent, and [send_handshake] returns [True] on that reply. *)
Theorem handshake_end_to_end (now : spec_float) :
  json_dumps (pi_handshake.payload now) <> [] ->
  (Z.of_nat (length (json_dumps (pi_handshake.payload now))) < 4294967296)%Z ->
  json_loads (json_dumps (pi_handshake.payload now))
  = Some (pi_handshake.payload now) ->
  json_dumps (ack (JFloat now)) <> [] ->
  (Z.of_nat (length (json_dumps (ack (JFloat now)))) <= 4096)%Z ->
  json_loads (json_dumps (ack (JFloat now))) = Some (ack (JFloat now)) ->
  exists sent,
    acks (handle_handshake sent).2 = [ack (JFloat now)]
    /\ send_handshake now
         (pi_handshake.Connected
            (map json_dumps (acks (handle_handshake sent).2)))
       = (true, sent).
Proof.
  intros Hreq Hsize Hrt Hrep Hrsize Hrrt.
  set (payload_bytes := json_dumps (pi_handshake.payload now)) in *.
  exists [to_bytes4 (Z.of_nat (length payload_bytes)); payload_bytes].
  assert (Hshape : accepted_shape (pi_handshake.payload now)).
  { do 7 eexists. repeat split; reflexivity. }
  destruct (respond_accepted _ Hshape) as (ts & Hts & Hresp).
  injection Hts as <-.
  assert (Hserver :
            handle_handshake
              [to_bytes4 (Z.of_nat (length payload_bytes)); payload_bytes]
            = (None, [Json_loads payload_bytes;
                      Log_received (pi_handshake.payload now);
                      Sendall (ack (JFloat now)); Log_sent_ack])).
  { unfold xeon_handshake.handle_handshake.
    rewrite (recv_whole 4 (to_bytes4 _)) by (try discriminate; simpl; lia).
    change (to_bytes4 (Z.of_nat (length payload_bytes)))
      with (byte_of_Z (Z.of_nat (length payload_bytes) / 16777216)
            :: [byte_of_Z (Z.of_nat (length payload_bytes) / 65536);
                byte_of_Z (Z.of_nat (length payload_bytes) / 256);
                byte_of_Z (Z.of_nat (length payload_bytes))]) at 1.
    cbv iota.
    change (byte_of_Z (Z.of_nat (length payload_bytes) / 16777216)
            :: [byte_of_Z (Z.of_nat (length payload_bytes) / 65536);
                byte_of_Z (Z.of_nat (length payload_bytes) / 256);
                byte_of_Z (Z.of_nat (length payload_bytes))])
      with (to_bytes4 (Z.of_nat (length payload_bytes))).
    rewrite int_from_bytes_to_bytes4 by lia.
    rewrite (recv_whole _ payload_bytes) by (auto; lia).
    rewrite Hrt, Hresp. reflexivity. }
  rewrite Hserver. cbn [snd]. split; [reflexivity|].
  unfold pi_handshake.send_handshake. fold payload_bytes.
  destruct (Z.leb_spec 4294967296 (Z.of_nat (length payload_bytes))); [lia|].
  change (acks [Json_loads payload_bytes;
                Log_received (pi_handshake.payload now);
                Sendall (ack (JFloat now)); Log_sent_ack])
    with [ack (JFloat now)].
  cbn [map].
  rewrite (recv_whole pi_handshake.BUFFER_SIZE (json_dumps (ack (JFloat now))))
    by (auto; unfold pi_handshake.BUFFER_SIZE; lia).
  rewrite Hrrt. reflexivity.
Qed.

End handshake_more.

Lemma short_prefix_parses_nothing_witness :
  exists tr,
    (xeon_handshake.handle_handshake loads_config
       [take 3 (to_bytes4 84); [Byte.x54]; config_bytes]).2
    = xeon_handshake.Json_loads [] :: tr.
Proof.
  apply (short_prefix_parses_nothing loads_config 3 84 [[Byte.x54]; config_bytes]).
  - lia.
  - vm_compute. split; [discriminate | reflexivity].
Defined.

Lemma handshake_end_to_end_witness :
  exists sent,
    xeon_handshake.acks (xeon_handshake.handle_handshake ToyJson.loads sent).2
    = [ack (JFloat ToyJson.now)]
    /\ pi_handshake.send_handshake ToyJson.dumps ToyJson.loads ToyJson.now
         (pi_handshake.Connected
            (map ToyJson.dumps
               (xeon_handshake.acks
                  (xeon_handshake.handle_handshake ToyJson.loads sent).2)))
       = (true, sent).
Proof.
  apply (handshake_end_to_end ToyJson.dumps ToyJson.loads ToyJson.now).
  - discriminate.
  - vm_compute. reflexivity.
  - reflexivity.
  - discriminate.
  - vm_compute. discriminate.
  - reflexivity.
Defined.

(** ** Properties of the image server *)

Section image_server_properties.

Import server.

Variable get_image_description : bytes -> option string.

Abbreviation handle_client := (handle_client get_image_description).

(** What the image loop returns, for every segmentation of the stream. *)
Lemma recv_image_spec (fuel : nat) :
  forall (image_size : Z) (image_data : bytes) (conn : socket),
    match recv_image fuel image_size image_data conn with
    | Out_of_fuel => True
    | Disconnected conn' =>
        conn' = []
        /\ (Z.of_nat (length image_data + pending conn) < image_size)%Z
    | Received data conn' =>
        exists more,
          data = (image_data ++ more)%list
          /\ concat conn = (more ++ concat conn')%list
          /\ (image_size <= Z.of_nat (length data))%Z
          /\ ((Z.of_nat (length image_data) < image_size)%Z ->
              (Z.of_nat (length data) < image_size + 4096)%Z)
          /\ ((image_size <= Z.of_nat (length image_data))%Z -> more = [])
    end.
Proof.
  induction fuel as [|fuel IH]; intros size acc conn; [exact I|].
  cbn [recv_image].
  destruct (Z.ltb_spec (Z.of_nat (length acc)) size) as [Hlt|Hge].
  - pose proof (recv_concat 4096 conn) as Hc.
    pose proof (recv_length 4096 conn ltac:(lia)) as Hl.
    pose proof (recv_empty 4096 conn ltac:(lia)) as He.
    destruct (recv 4096 conn) as [packet c1]. cbn [fst snd] in Hc, Hl, He.
    destruct packet as [|b packet].
    + destruct (He eq_refl) as [-> Hnil]. split; [reflexivity|].
      unfold pending. rewrite Hnil. simpl. lia.
    + specialize (IH size (acc ++ b :: packet)%list c1).
      destruct (recv_image fuel size _ c1) as [|c'|data c'].
      * exact I.
      * destruct IH as [-> Hp]. split; [reflexivity|].
        unfold pending in *. rewrite Hc. rewrite !length_app in *. lia.
      * destruct IH as (more & -> & Hc1 & Hsize & Hup & Hdone).
        exists ((b :: packet) ++ more)%list.
        split; [rewrite <- app_assoc; reflexivity|].
        split; [rewrite Hc, Hc1, <- app_assoc; reflexivity|].
        split; [exact Hsize|].
        split; [|intros; lia].
        intros _.
        destruct (Z.lt_ge_cases (Z.of_nat (length (acc ++ b :: packet)%list)) size)
          as [Hmore|Hfull].
        -- apply Hup, Hmore.
        -- rewrite (Hdone Hfull), app_nil_r.
           rewrite length_app in *. lia.
  - exists []. rewrite app_nil_r.
    repeat split; try reflexivity; try lia.
Qed.

Lemma recv_image_total (fuel : nat) :
  forall (image_size : Z) (image_data : bytes) (conn : socket),
    (pending conn < fuel)%nat ->
    recv_image fuel image_size image_data conn <> Out_of_fuel.
Proof.
  induction fuel as [|fuel IH]; intros size acc conn Hfuel; [lia|].
  cbn [recv_image].
  destruct (Z.of_nat (length acc) <? size)%Z; [|discriminate].
  pose proof (recv_pending 4096 conn) as Hp.
  destruct (recv 4096 conn) as [packet conn']. cbn [fst snd] in Hp.
  destruct packet as [|b packet]; [discriminate|].
  apply IH. simpl length in Hp. lia.
Qed.

(** X16. What the image server saves is what the stream holds after the
    size bytes, from its first byte on, for every segmentation; it has
    at least the announced number of bytes, and, because the loop asks
    for 4096 bytes at a time whatever is missing, up to 4095 bytes more
    than announced. *)
Theorem saved_image_is_stream_prefix (conn : socket) (image_data : bytes) :
  In image_data (saved (handle_client conn)) ->
  exists rest,
    concat conn = ((recv 4 conn).1 ++ image_data ++ rest)%list
    /\ (int_from_bytes (recv 4 conn).1 <= Z.of_nat (length image_data)
        < int_from_bytes (recv 4 conn).1 + 4096)%Z.
Proof.
  unfold server.handle_client.
  pose proof (recv_concat 4 conn) as Hc.
  destruct (recv 4 conn) as [size_bytes c1]. cbn [fst snd] in *.
  destruct size_bytes as [|b0 bs]; [cbn; tauto|].
  pose proof (recv_image_spec (S (pending c1))
                (int_from_bytes (b0 :: bs)) [] c1) as Hs.
  pose proof (int_from_bytes_range (b0 :: bs)) as [Hpos _].
  destruct (recv_image (S (pending c1)) (int_from_bytes (b0 :: bs)) [] c1)
    as [|c'|data c'].
  - cbn. tauto.
  - cbn. tauto.
  - destruct Hs as (more & -> & Hc1 & Hsize & Hup & Hdone).
    cbn [app] in *.
    assert (Hin : forall tr,
               saved (Sendall (list_byte_of_string "CAPTURE"%string)
                      :: Print_expecting (int_from_bytes (b0 :: bs))
                      :: Saved more :: tr) = more :: saved tr)
      by reflexivity.
    intros H.
    assert (Heq : image_data = more).
    { destruct (get_image_description more); rewrite Hin in H;
        cbn in H; destruct H as [H|[]]; symmetry; exact H. }
    subst image_data. exists (concat c').
    split; [rewrite Hc, Hc1; reflexivity|].
    split; [exact Hsize|].
    destruct (Z.eq_dec (int_from_bytes (b0 :: bs)) 0) as [E0|NE].
    + rewrite (Hdone ltac:(simpl; lia)). simpl. lia.
    + apply Hup. simpl. lia.
Qed.

Lemma recv_image_exact (c1 : socket) :
  exists c',
    recv_image (S (pending c1)) (Z.of_nat (length (concat c1))) [] c1
    = Received (concat c1) c'.
Proof.
  pose proof (recv_image_spec (S (pending c1))
                (Z.of_nat (length (concat c1))) [] c1) as Hs.
  pose proof (recv_image_total (S (pending c1))
                (Z.of_nat (length (concat c1))) [] c1 ltac:(lia)) as Ht.
  destruct (recv_image (S (pending c1)) (Z.of_nat (length (concat c1))) [] c1)
    as [|c'|data c'].
  - contradiction.
  - destruct Hs as [_ Hshort]. unfold pending in Hshort.
    simpl length in Hshort. lia.
  - destruct Hs as (more & -> & Hc & Hlen & _ & _). cbn [app] in *.
    exists c'. f_equal.
    assert (Hz : length (concat c') = 0%nat).
    { apply (f_equal length) in Hc. rewrite length_app in Hc. lia. }
    apply length_zero_iff_nil in Hz.
    rewrite Hc, Hz, app_nil_r. reflexivity.
Qed.

(** X17. An image sent by [run_client] arrives whole.  For an encoded
    image of fewer than 2^32 bytes and every segmentation of the
    client's message that keeps its four size bytes in the first
    segment, the server saves exactly the image and, when the description
    comes back, sends its confirmation. *)
Theorem image_round_trip (img_bytes a : bytes) (cs : list bytes) :
  (Z.of_nat (length img_bytes) < 4294967296)%Z ->
  (a ++ concat cs)%list = img_bytes ->
  concat ((to_bytes4 (Z.of_nat (length img_bytes)) ++ a)%list :: cs)
  = client_message img_bytes
  /\ handle_client ((to_bytes4 (Z.of_nat (length img_bytes)) ++ a)%list :: cs)
     = match get_image_description img_bytes with
       | None =>
           [Sendall (list_byte_of_string "CAPTURE"%string);
            Print_expecting (Z.of_nat (length img_bytes)); Saved img_bytes;
            Print_unexpected_error]
       | Some description =>
           [Sendall (list_byte_of_string "CAPTURE"%string);
            Print_expecting (Z.of_nat (length img_bytes)); Saved img_bytes;
            Print_description description;
            Sendall (list_byte_of_string
                       "Image received and analyzed by AI"%string)]
       end.
Proof.
  intros Hsize Himg. split.
  { unfold client_message. cbn [concat]. rewrite <- app_assoc, Himg.
    reflexivity. }
  unfold server.handle_client.
  set (n := Z.of_nat (length img_bytes)) in *.
  pose proof (recv_split (to_bytes4 n) a cs ltac:(discriminate)) as Hr.
  change (Z.of_nat (length (to_bytes4 n))) with 4%Z in Hr.
  match type of Hr with
  | _ = (_, ?c) =>
      assert (Hc1 : concat c = img_bytes) by (destruct a; exact Himg);
      rewrite Hr; clear Hr; revert Hc1; generalize c; intros c1 Hc1
  end.
  assert (Hint : int_from_bytes (to_bytes4 n) = n)
    by (apply int_from_bytes_to_bytes4; unfold n; lia).
  destruct (to_bytes4 n) as [|b0 bs] eqn:E; [discriminate E|].
  rewrite Hint.
  destruct (recv_image_exact c1) as [c' Hrecv].
  rewrite Hc1 in Hrecv. fold n in Hrecv. rewrite Hrecv. reflexivity.
Qed.

(** X18. When the client goes away before the announced number of bytes
    has come, the server reports the disconnection during the transfer:
    nothing is saved, the image is not described, and no confirmation is
    sent. *)
Theorem short_image_is_not_saved (conn : socket) :
  (recv 4 conn).1 <> [] ->
  (Z.of_nat (pending (recv 4 conn).2) < int_from_bytes (recv 4 conn).1)%Z ->
  handle_client conn
  = [Sendall (list_byte_of_string "CAPTURE"%string);
     Print_expecting (int_from_bytes (recv 4 conn).1);
     Print_connection_error "Client disconnected during image transfer."%string].
Proof.
  unfold server.handle_client.
  destruct (recv 4 conn) as [size_bytes c1]. cbn [fst snd].
  intros Hne Hshort.
  destruct size_bytes as [|b0 bs]; [contradiction|].
  pose proof (recv_image_spec (S (pending c1))
                (int_from_bytes (b0 :: bs)) [] c1) as Hs.
  pose proof (recv_image_total (S (pending c1))
                (int_from_bytes (b0 :: bs)) [] c1 ltac:(lia)) as Ht.
  destruct (recv_image (S (pending c1)) (int_from_bytes (b0 :: bs)) [] c1)
    as [|c'|data c'].
  - contradiction.
  - reflexivity.
  - destruct Hs as (more & -> & Hc & Hlen & _ & _). cbn [app] in *.
    assert (Hm : (length more <= pending c1)%nat).
    { unfold pending. rewrite Hc, length_app. lia. }
    lia.
Qed.

End image_server_properties.

Lemma saved_image_is_stream_prefix_witness :
  exists rest,
    concat [[Byte.x00; Byte.x00; Byte.x00; Byte.x02;
             Byte.xff; Byte.xd8; Byte.xd9]]
    = (recv 4 [[Byte.x00; Byte.x00; Byte.x00; Byte.x02;
                Byte.xff; Byte.xd8; Byte.xd9]]).1
      ++ [Byte.xff; Byte.xd8; Byte.xd9] ++ rest
    /\ int_from_bytes
         (recv 4 [[Byte.x00; Byte.x00; Byte.x00; Byte.x02;
                   Byte.xff; Byte.xd8; Byte.xd9]]).1
       <= Z.of_nat (length [Byte.xff; Byte.xd8; Byte.xd9])
       < int_from_bytes
           (recv 4 [[Byte.x00; Byte.x00; Byte.x00; Byte.x02;
                     Byte.xff; Byte.xd8; Byte.xd9]]).1 + 4096.
Proof.
  apply (saved_image_is_stream_prefix (fun _ => Some "a frame"%string)).
  left. reflexivity.
Defined.

Lemma image_round_trip_witness :
  concat [ to_bytes4 3 ++ [Byte.xff]; [Byte.xd8]; [Byte.xd9] ]
  = server.client_message [Byte.xff; Byte.xd8; Byte.xd9]
  /\ server.handle_client (fun _ => Some "a frame"%string)
       [ to_bytes4 3 ++ [Byte.xff]; [Byte.xd8]; [Byte.xd9] ]
     = [ server.Sendall (list_byte_of_string "CAPTURE"%string);
         server.Print_expecting 3;
         server.Saved [Byte.xff; Byte.xd8; Byte.xd9];
         server.Print_description "a frame"%string;
         server.Sendall (list_byte_of_string
                           "Image received and analyzed by AI"%string) ].
Proof.
  apply (image_round_trip (fun _ => Some "a frame"%string)
           [Byte.xff; Byte.xd8; Byte.xd9] [Byte.xff] [[Byte.xd8]; [Byte.xd9]]).
  - vm_compute. reflexivity.
  - reflexivity.
Defined.

Lemma short_image_is_not_saved_witness :
  server.handle_client (fun _ => Some "a frame"%string)
    [[Byte.x00; Byte.x00; Byte.x00; Byte.x05]; [Byte.xff]]
  = [ server.Sendall (list_byte_of_string "CAPTURE"%string);
      server.Print_expecting 5;
      server.Print_connection_error
        "Client disconnected during image transfer."%string ].
Proof.
  apply (short_image_is_not_saved (fun _ => Some "a frame"%string)
           [[Byte.x00; Byte.x00; Byte.x00; Byte.x05]; [Byte.xff]]).
  - discriminate.
  - vm_compute. reflexivity.
Defined.

(** ** Properties of the plain single-camera server *)

Section simple_server_properties.

Import server_stream_simple.

Variable image : Type.
Variable imdecode : bytes -> option image.
Variable cvtColor_BGR2GRAY : image -> image.
Variable Canny : image -> Z -> Z -> image.

Abbreviation main := (main image imdecode cvtColor_BGR2GRAY Canny).

Lemma simple_main_globals (fuel : nat) :
  forall (client : socket) (g : globals image) (l : locals image),
    (main fuel client g l).1.2 = g.
Proof.
  induction fuel as [|fuel IH]; intros client g l; [reflexivity|].
  cbn [server_stream_simple.main].
  destruct (xeon_stream.receive_frame image imdecode client)
    as [[[[cam_id frame]|] logs] client']; [|apply IH].
  unfold server_stream_simple.update.
  destruct (negb (cam_id =? EXPECTED_CAMERA)); cbn; apply IH.
Qed.

(** X19. In the plain single-camera server too, no stream reaches the
    web feed: after any number of received frames the module-level
    frame and edge slots are still empty and every read of the feed finds
    nothing to send. *)
Theorem simple_feed_never_has_a_frame (fuel : nat) (client : socket)
        (data_type : string) :
  generate_mjpeg_stream image data_type
    (main fuel client (module_init image) (main_init image)).1.2 = None.
Proof.
  rewrite simple_main_globals.
  unfold server_stream_simple.generate_mjpeg_stream.
  destruct (String.eqb data_type "frame"); reflexivity.
Qed.

End simple_server_properties.

